(** * Food-transport emissions: the data aggregation and query layer

    A shallow embedding of the derived-view computations of the
    dashboard (metric resolution, yearly series, rankings, shares,
    trade-partner lists, flow filtering, choropleth colours, and the
    commodity-to-factor lookup), followed by the properties stated about
    them.

    Conventions of the embedding:
    - a JavaScript [number] is a rational ([Q]); comparisons are the
      numeric ones ([Qeq_bool], [Qle_bool]), so rounding error, [NaN] and
      infinities of IEEE doubles are outside the model;
    - a JavaScript object used as a dictionary is the list of its own
      enumerable properties in iteration order ([Js.Obj]); [obj[k]] is
      [Js.get], which only sees own properties;
    - [undefined]/[null] is [None];
    - [Array.prototype.sort] is a stable sort (ECMAScript 2019), embedded
      as a stable insertion sort driven by the source's comparator. *)

From Stdlib Require Import List String Ascii Bool ZArith QArith Qround Qminmax.
From Stdlib Require Import Lia Lqa Sorted Permutation DecimalString.
From Stdlib Require OrderedTypeEx.
Import ListNotations.

Open Scope Q_scope.

(** ** JavaScript prelude *)

Module Js.

(** Objects as ordered property lists. *)
Definition Obj (V : Type) : Type := list (string * V).

(** [o[k]] on own properties. *)
Fixpoint get {V : Type} (o : Obj V) (k : string) : option V :=
  match o with
  | [] => None
  | (k', v) :: o' => if String.eqb k k' then Some v else get o' k
  end.

(** [Object.keys(o)] and [Object.entries(o)]. *)
Definition keys {V : Type} (o : Obj V) : list string := map fst o.
Definition entries {V : Type} (o : Obj V) : list (string * V) := o.

(** [a?.[k]]: optional chaining into a dictionary. *)
Definition oget {V : Type} (a : option (Obj V)) (k : string) : option V :=
  match a with
  | Some o => get o k
  | None => None
  end.

(** [a?.f] for an optional field [f]. *)
Definition ofield {A B : Type} (a : option A) (f : A -> option B) : option B :=
  match a with
  | Some x => f x
  | None => None
  end.

(** [a?.f] for a mandatory field [f]. *)
Definition omap {A B : Type} (a : option A) (f : A -> B) : option B :=
  match a with
  | Some x => Some (f x)
  | None => None
  end.

(** [a ?? d]. *)
Definition nullish {A : Type} (a : option A) (d : A) : A :=
  match a with
  | Some x => x
  | None => d
  end.

(** Truthiness of a number: everything but zero. *)
Definition truthy (x : Q) : bool := negb (Qeq_bool x 0).

(** Truthiness of a string: everything but the empty string. *)
Definition truthyStr (s : string) : bool :=
  match s with
  | EmptyString => false
  | String _ _ => true
  end.

(** [x > y] and [x >= y] on numbers. *)
Definition gtb (x y : Q) : bool := negb (Qle_bool x y).
Definition geb (x y : Q) : bool := Qle_bool y x.

(** [Math.floor], [Math.round] (halves go up), [Math.min], [Math.max]. *)
Definition Math_floor (x : Q) : Z := Qfloor x.
Definition Math_round (x : Q) : Z := Qfloor (x + (1 # 2)).
Definition Math_min (x y : Q) : Q := Qmin x y.
Definition Math_max (x y : Q) : Q := Qmax x y.

(** [String(n)] for an integer [n]. *)
Definition String_ (n : Z) : string := NilZero.string_of_int (Z.to_int n).

(** [Array.prototype.sort(cmp)]: [x], which comes before every element
    of [l] in the input, is placed before the first [y] that the
    comparator does not order strictly before it. *)
Section Sort.
Context {A : Type} (cmp : A -> A -> Q).

Fixpoint insert (x : A) (l : list A) : list A :=
  match l with
  | [] => [x]
  | y :: l' => if Qle_bool (cmp x y) 0 then x :: l else y :: insert x l'
  end.

Definition sort (l : list A) : list A := fold_right insert [] l.
End Sort.

(** [Array.prototype.findIndex(p)], scanning from index [i]. *)
Fixpoint findIndexFrom {A : Type} (p : A -> bool) (l : list A) (i : Z) : Z :=
  match l with
  | [] => (-1)%Z
  | x :: l' => if p x then i else findIndexFrom p l' (i + 1)%Z
  end.

Definition findIndex {A : Type} (p : A -> bool) (l : list A) : Z :=
  findIndexFrom p l 0%Z.

(** [Array.prototype.slice(0, n)]. *)
Definition slice0 {A : Type} (n : nat) (l : list A) : list A := firstn n l.

(** [a[i]] on an array, for a number [i] that is an integer. *)
Definition index {A : Type} (a : list A) (i : Z) : option A :=
  if (i <? 0)%Z then None else nth_error a (Z.to_nat i).

(** [String.prototype.toLowerCase], on the ASCII letters. *)
Definition lowerAscii (c : ascii) : ascii :=
  let n := nat_of_ascii c in
  if (65 <=? n)%nat && (n <=? 90)%nat then ascii_of_nat (n + 32) else c.

Fixpoint toLowerCase (s : string) : string :=
  match s with
  | EmptyString => EmptyString
  | String c s' => String (lowerAscii c) (toLowerCase s')
  end.

(** [s.split(sep)[0]] for a one-character separator. *)
Fixpoint splitHead (sep : ascii) (s : string) : string :=
  match s with
  | EmptyString => EmptyString
  | String c s' => if Ascii.eqb c sep then EmptyString else String c (splitHead sep s')
  end.

(** [s.includes(sub)]. *)
Fixpoint includes (s sub : string) : bool :=
  String.prefix sub s
  || match s with
     | EmptyString => false
     | String _ s' => includes s' sub
     end.

(** [s.charAt(0).toUpperCase() + s.slice(1)], on the ASCII letters. *)
Definition upperAscii (c : ascii) : ascii :=
  let n := nat_of_ascii c in
  if (97 <=? n)%nat && (n <=? 122)%nat then ascii_of_nat (n - 32) else c.

Definition capitalize (s : string) : string :=
  match s with
  | EmptyString => EmptyString
  | String c s' => String (upperAscii c) s'
  end.

(** [Math.min(...xs, x)] and [Math.max(...xs, x)]: a spread array
    followed by one more argument. *)
Definition Math_min_spread (xs : list Q) (x : Q) : Q := fold_right Math_min x xs.
Definition Math_max_spread (xs : list Q) (x : Q) : Q := fold_right Math_max x xs.

(** [a.indexOf(x)] on an array of integers. *)
Definition indexOf (a : list Z) (x : Z) : Z := findIndex (Z.eqb x) a.

(** [a.map((x, i) => f(x, i))], counting from [i]. *)
Fixpoint mapiFrom {A B : Type} (f : A -> Z -> B) (l : list A) (i : Z) : list B :=
  match l with
  | [] => []
  | x :: l' => f x i :: mapiFrom f l' (i + 1)%Z
  end.

Definition mapi {A B : Type} (f : A -> Z -> B) (l : list A) : list B :=
  mapiFrom f l 0%Z.

(** A [Map] with string keys, in insertion order: [set] on a key that
    is present replaces its value in place. *)
Definition Map (V : Type) : Type := list (string * V).

Fixpoint mapSet {V : Type} (m : Map V) (k : string) (v : V) : Map V :=
  match m with
  | [] => [(k, v)]
  | (k', v') :: m' =>
      if String.eqb k k' then (k', v) :: m' else (k', v') :: mapSet m' k v
  end.

Definition mapGet {V : Type} (m : Map V) (k : string) : option V := get m k.
Definition mapValues {V : Type} (m : Map V) : list V := map snd m.

(** The comparison of [Array.prototype.sort()] without a comparator, on
    strings: lexicographic on the code units. *)
Definition cmpString (a b : string) : Q :=
  match String.compare a b with
  | Lt => -1
  | Eq => 0
  | Gt => 1
  end.

Definition sortStrings (l : list string) : list string := sort cmpString l.

(** [s.slice(0, n)] on a string. *)
Definition sliceStr (n : nat) (s : string) : string := String.substring 0 n s.

End Js.

(** ** Data model (types/data.ts) *)

Module RouteEmissions.
Record t : Type := mk
  { wtw : Q; ttw : Q; wtt : Q; food_miles : Q; value : Q; cost : option Q }.
End RouteEmissions.

Module CommodityRouteData.
Record t : Type := mk
  { wtw : Q; ttw : Q; food_miles : Q; value : Q }.
End CommodityRouteData.

(** The two route records are read through the same two fields. *)
Class Route (R : Type) : Type :=
  { ttw : R -> Q;
    food_miles : R -> Q }.

#[export] Instance Route_RouteEmissions : Route RouteEmissions.t :=
  {| ttw := RouteEmissions.ttw; food_miles := RouteEmissions.food_miles |}.

#[export] Instance Route_CommodityRouteData : Route CommodityRouteData.t :=
  {| ttw := CommodityRouteData.ttw; food_miles := CommodityRouteData.food_miles |}.

(** One year of one entity: [{ bilateral?: R, domestic?: R }]. *)
Record YearEntry (R : Type) : Type := mkYearEntry
  { bilateral : option R;
    domestic : option R }.

Arguments mkYearEntry {R} _ _.
Arguments bilateral {R} _.
Arguments domestic {R} _.

(** [CountryYearData] / [CommodityYearData], and the per-entity tables. *)
Definition YearData (R : Type) : Type := Js.Obj (YearEntry R).
Definition EntityDataset (R : Type) : Type := Js.Obj (YearData R).

Definition ConsumerCountries : Type := EntityDataset RouteEmissions.t.
Definition Commodities : Type := EntityDataset CommodityRouteData.t.

Module BilateralFlow.
Record t : Type := mk
  { from : string; to : string;
    wtw : Q; ttw : Q; wtt : Q; food_miles : Q; cost : Q;
    n_commodities : Q; dominant_mode : string }.
End BilateralFlow.

Definition BilateralTopFlows : Type := Js.Obj (Js.Obj (list BilateralFlow.t)).
Definition BilateralByCommodity : Type := Js.Obj (Js.Obj (list BilateralFlow.t)).

Module TransportModeFactor.
Record t : Type := mk
  { wtw : Q; ttw : Q; distance : Q; routes : Q }.
End TransportModeFactor.

Definition TransportFactors : Type := Js.Obj (Js.Obj TransportModeFactor.t).

Module CountryMeta.
Record t : Type := mk
  { name : string; lat : Q; lng : Q; region : string }.
End CountryMeta.

Definition CountryMetadata : Type := Js.Obj CountryMeta.t.

Module GlobalTimeseries.
Record t : Type := mk
  { years : list Z;
    trade_volume_mt : list Q;
    wtw_emissions_mtco2 : list Q;
    ttw_emissions_mtco2 : list Q;
    wtt_emissions_mtco2 : list Q;
    food_miles_billion_tkm : list Q;
    preliminary_years : list Z }.
End GlobalTimeseries.

Module CountryListItem.
Record t : Type := mk
  { iso3 : string; name : string; region : string }.
End CountryListItem.

Module DropdownLists.
Record t : Type := mk
  { commodities : list string; countries : list CountryListItem.t }.
End DropdownLists.

(** ** utils/colors.ts *)

Module Colors.

Definition SEQUENTIAL_BLUE : list string :=
  [ "#0a1628"; "#0f2847"; "#143a66"; "#1a4d85";
    "#2060a5"; "#2874c5"; "#3a8ee5"; "#4A9EFF" ]%string.

(** The index computed on the non-degenerate path. *)
Definition sequentialIndex (value min max : Q) : Z :=
  let ratio := Js.Math_min 1 (Js.Math_max 0 ((value - min) / (max - min))) in
  Js.Math_floor (ratio * inject_Z (Z.of_nat (List.length SEQUENTIAL_BLUE) - 1)).

(** [getSequentialColor]; [None] is the [undefined] of an out-of-range
    array read. *)
Definition getSequentialColor (value min max : Q) : option string :=
  if Qeq_bool max min then Js.index SEQUENTIAL_BLUE 4
  else Js.index SEQUENTIAL_BLUE (sequentialIndex value min max).

End Colors.

(** ** context/DataContext.tsx *)

Module DataContext.

(** [countryMeta?.[iso3]?.name ?? iso3] *)
Definition getCountryName (countryMeta : option CountryMetadata) (iso3 : string) : string :=
  Js.nullish (Js.omap (Js.oget countryMeta iso3) CountryMeta.name) iso3.

End DataContext.

(** ** The per-entity views (views/CountryExplorer.tsx and
       views/CommodityExplorer.tsx)

    The two explorers run the same code over their own table: consumer
    countries keyed by ISO3 code, commodities keyed by name. *)

Record SeriesPoint : Type := mkSeriesPoint
  { year : Z; Domestic : Z; International : Z }.

Module RankEntry.
Record t : Type := mk
  { name : string; ttw : Q }.
End RankEntry.

Record RankResult : Type := mkRankResult
  { rank : Z; total : Z }.

Section Explorer.
Context {R : Type} `{Route R}.

(** [consumers] / [commodities]: [None] until the table is loaded. *)
Variable dataset : option (EntityDataset R).
(** [iso3] / [commodity] *)
Variable entity : string.
Variable yearStr : string.

(** [countryData] / [commData] *)
Definition entityData : option (YearData R) := Js.oget dataset entity.

Definition yd : option (YearEntry R) := Js.oget entityData yearStr.

Definition bilTtw : Q := Js.nullish (Js.omap (Js.ofield yd bilateral) ttw) 0.
Definition domTtw : Q := Js.nullish (Js.omap (Js.ofield yd domestic) ttw) 0.
Definition totalTtw : Q := bilTtw + domTtw.
Definition totalFm : Q :=
  Js.nullish (Js.omap (Js.ofield yd bilateral) food_miles) 0
  + Js.nullish (Js.omap (Js.ofield yd domestic) food_miles) 0.

(** [r?.ttw ? Math.round(r.ttw / 1e3) : 0] for an optional route [r]. *)
Definition roundedThousands (r : option R) : Z :=
  match Js.omap r ttw with
  | Some v => if Js.truthy v then Js.Math_round (v / 1000) else 0%Z
  | None => 0%Z
  end.

Definition seriesPoint (countryData : YearData R) (i : nat) : SeriesPoint :=
  let y := (2010 + Z.of_nat i)%Z in
  let d := Js.get countryData (Js.String_ y) in
  {| year := y;
     Domestic := roundedThousands (Js.ofield d domestic);
     International := roundedThousands (Js.ofield d bilateral) |}.

(** [Array.from({ length: 14 }, (_, i) => ...)], behind the guard on
    the entity's record. *)
Definition timeSeries : list SeriesPoint :=
  match entityData with
  | None => []
  | Some countryData => map (seriesPoint countryData) (seq 0 14)
  end.

End Explorer.

(** The comparator [(a, b) => b.ttw - a.ttw] on a record read through
    [f]. *)
Definition byTtwDesc {A : Type} (f : A -> Q) (a b : A) : Q := f b - f a.

Section Ranking.
Context {R : Type} `{Route R}.

(** [(d?.bilateral?.ttw ?? 0) + (d?.domestic?.ttw ?? 0)] for
    [d = data[yearStr]]. *)
Definition yearTotal (data : YearData R) (yearStr : string) : Q :=
  let d := Js.get data yearStr in
  Js.nullish (Js.omap (Js.ofield d bilateral) ttw) 0
  + Js.nullish (Js.omap (Js.ofield d domestic) ttw) 0.

(** [Object.entries(table).map(([name, data]) => ({ name, ttw }))] *)
Definition rankEntries (table : EntityDataset R) (yearStr : string) : list RankEntry.t :=
  map (fun e : string * YearData R =>
         {| RankEntry.name := fst e; RankEntry.ttw := yearTotal (snd e) yearStr |})
      (Js.entries table).

(** [sorted] of [allRanked] *)
Definition sorted (table : EntityDataset R) (yearStr : string) : list RankEntry.t :=
  Js.sort (byTtwDesc RankEntry.ttw) (rankEntries table yearStr).

(** [allRanked] (CommodityExplorer.tsx) *)
Definition allRanked (commodities : option (EntityDataset R))
    (commodity yearStr : string) : RankResult :=
  match commodities with
  | None => {| rank := 0; total := 0 |}
  | Some table =>
      let s := sorted table yearStr in
      {| rank := (Js.findIndex (fun c => String.eqb (RankEntry.name c) commodity) s + 1)%Z;
         total := Z.of_nat (List.length s) |}
  end.

(** The loop of [intlShare] (GlobalOverview): one step per key, on the
    pair of accumulators [(bilateral, total)]. *)
Definition intlShareStep (consumers : EntityDataset R) (yearStr : string)
    (acc : Q * Q) (iso3 : string) : Q * Q :=
  let yd := Js.oget (Js.get consumers iso3) yearStr in
  let acc1 :=
    match Js.ofield yd bilateral with
    | Some b => (fst acc + ttw b, snd acc + ttw b)
    | None => acc
    end in
  match Js.ofield yd domestic with
  | Some d => (fst acc1, snd acc1 + ttw d)
  | None => acc1
  end.

Definition intlShareLoop (consumers : EntityDataset R) (yearStr : string) : Q * Q :=
  fold_left (intlShareStep consumers yearStr) (Js.keys consumers) (0, 0).

(** [intlShare] (GlobalOverview) *)
Definition intlShare (consumers : option (EntityDataset R)) (yearStr : string) : Q :=
  match consumers with
  | None => 0
  | Some table =>
      let '(bilateral, total) := intlShareLoop table yearStr in
      if Js.gtb total 0 then (bilateral / total) * 100 else 0
  end.

End Ranking.

(** ** Top consumers (GlobalOverview) *)

Module GlobalOverview.

Module ConsumerRow.
Record t : Type := mk
  { iso3 : string; name : string; ttw : Q }.
End ConsumerRow.

(** [Object.entries(consumers).map(([iso3, data]) => ({ iso3, name, ttw }))] *)
Definition consumerRows (countryMeta : option CountryMetadata)
    (table : ConsumerCountries) (yearStr : string) : list ConsumerRow.t :=
  map (fun e : string * YearData RouteEmissions.t =>
         {| ConsumerRow.iso3 := fst e;
            ConsumerRow.name := DataContext.getCountryName countryMeta (fst e);
            ConsumerRow.ttw := yearTotal (snd e) yearStr |})
      (Js.entries table).

Definition topConsumers (consumers : option ConsumerCountries)
    (countryMeta : option CountryMetadata) (yearStr : string) : list ConsumerRow.t :=
  match consumers with
  | None => []
  | Some table =>
      Js.slice0 15
        (Js.sort (byTtwDesc ConsumerRow.ttw) (consumerRows countryMeta table yearStr))
  end.

(** *** Stat cards and the global series *)

Definition yearIdx (global : option GlobalTimeseries.t) (selectedYear : Z) : Z :=
  match global with
  | Some g => Js.indexOf (GlobalTimeseries.years g) selectedYear
  | None => (-1)%Z
  end.

(** [yearIdx >= 0 ? global!.field[yearIdx] : 0]; [None] is the
    [undefined] of a column shorter than [years]. *)
Definition statCard (field : GlobalTimeseries.t -> list Q)
    (global : option GlobalTimeseries.t) (selectedYear : Z) : option Q :=
  if (0 <=? yearIdx global selectedYear)%Z
  then Js.ofield global (fun g => Js.index (field g) (yearIdx global selectedYear))
  else Some 0.

Definition ttwMt := statCard GlobalTimeseries.ttw_emissions_mtco2.
Definition foodMilesBt := statCard GlobalTimeseries.food_miles_billion_tkm.
Definition tradeVol := statCard GlobalTimeseries.trade_volume_mt.

Module GlobalPoint.
Record t : Type := mk
  { year : Z; TTW : option Q; WTT : option Q; foodMiles : option Q }.
End GlobalPoint.

Definition timeSeriesData (global : option GlobalTimeseries.t) : list GlobalPoint.t :=
  match global with
  | None => []
  | Some g =>
      Js.mapi (fun y i =>
                 {| GlobalPoint.year := y;
                    GlobalPoint.TTW := Js.index (GlobalTimeseries.ttw_emissions_mtco2 g) i;
                    GlobalPoint.WTT := Js.index (GlobalTimeseries.wtt_emissions_mtco2 g) i;
                    GlobalPoint.foodMiles :=
                      Js.index (GlobalTimeseries.food_miles_billion_tkm g) i |})
              (GlobalTimeseries.years g)
  end.

(** *** Domestic against international, per year *)

Module YearSplit.
Record t : Type := mk
  { year : Z; Domestic : Q; International : Q }.
End YearSplit.

(** One step of the inner loop, on the accumulators [(dom, bil)]. *)
Definition splitStep (consumers : ConsumerCountries) (yearStr : string)
    (acc : Q * Q) (iso3 : string) : Q * Q :=
  let yd := Js.oget (Js.get consumers iso3) yearStr in
  let acc1 :=
    match Js.ofield yd domestic with
    | Some d => (fst acc + ttw d, snd acc)
    | None => acc
    end in
  match Js.ofield yd bilateral with
  | Some b => (fst acc1, snd acc1 + ttw b)
  | None => acc1
  end.

Definition splitLoop (consumers : ConsumerCountries) (yearStr : string) : Q * Q :=
  fold_left (splitStep consumers yearStr) (Js.keys consumers) (0, 0).

(** [Math.round(x / 1e6 * 10) / 10] *)
Definition oneDecimalMt (x : Q) : Q :=
  inject_Z (Js.Math_round (x / 1000000 * 10)) / 10.

Definition domesticVsIntl (consumers : option ConsumerCountries) : list YearSplit.t :=
  match consumers with
  | None => []
  | Some table =>
      let years := map (fun i => (2010 + Z.of_nat i)%Z) (seq 0 14) in
      map (fun y =>
             let '(dom, bil) := splitLoop table (Js.String_ y) in
             {| YearSplit.year := y;
                YearSplit.Domestic := oneDecimalMt dom;
                YearSplit.International := oneDecimalMt bil |})
          years
  end.

(** *** Top commodities *)

Module CommodityRow.
Record t : Type := mk
  { name : string; ttw : Q; fullName : string }.
End CommodityRow.

(** [name.length > 25 ? name.slice(0, 22) + '...' : name] *)
Definition shortName (name : string) : string :=
  if (25 <? String.length name)%nat
  then String.append (Js.sliceStr 22 name) "..."
  else name.

Definition commodityRows (table : Commodities) (yearStr : string)
    : list CommodityRow.t :=
  map (fun e : string * YearData CommodityRouteData.t =>
         {| CommodityRow.name := shortName (fst e);
            CommodityRow.ttw := yearTotal (snd e) yearStr;
            CommodityRow.fullName := fst e |})
      (Js.entries table).

Definition topCommodities (commodities : option Commodities) (yearStr : string)
    : list CommodityRow.t :=
  match commodities with
  | None => []
  | Some table =>
      Js.slice0 10 (Js.sort (byTtwDesc CommodityRow.ttw) (commodityRows table yearStr))
  end.

(** *** Choropleth data *)

Definition countryEmissions (consumers : option ConsumerCountries) (yearStr : string)
    : Js.Map Q :=
  match consumers with
  | None => []
  | Some table =>
      fold_left (fun (map : Js.Map Q) (e : string * YearData RouteEmissions.t) =>
                   let ttw := yearTotal (snd e) yearStr in
                   if Js.gtb ttw 0 then Js.mapSet map (fst e) ttw else map)
                (Js.entries table) []
  end.

Definition emissionValues (consumers : option ConsumerCountries) (yearStr : string)
    : list Q :=
  Js.mapValues (countryEmissions consumers yearStr).

Definition minE (consumers : option ConsumerCountries) (yearStr : string) : Q :=
  Js.Math_min_spread (emissionValues consumers yearStr) 0.

Definition maxE (consumers : option ConsumerCountries) (yearStr : string) : Q :=
  Js.Math_max_spread (emissionValues consumers yearStr) 1.

(** [countryEmissions.get(iso3) ?? 0] *)
Definition val (consumers : option ConsumerCountries) (yearStr iso3 : string) : Q :=
  Js.nullish (Js.mapGet (countryEmissions consumers yearStr) iso3) 0.

End GlobalOverview.

(** ** Trade partners (views/CountryExplorer.tsx) *)

Module CountryExplorer.

Module Partner.
Record t : Type := mk
  { name : string; ttw : Q; iso3 : string }.
End Partner.

(** [bilateral[yearStr]?.all ?? []] *)
Definition flowsAll (bilateral : BilateralTopFlows) (yearStr : string)
    : list BilateralFlow.t :=
  Js.nullish (Js.oget (Js.get bilateral yearStr) "all") [].

Section Partners.
Variable bilateral : option BilateralTopFlows.
Variable countryMeta : option CountryMetadata.
Variables yearStr iso3 : string.

(** Imports to the selected country. *)
Definition topSources : list Partner.t :=
  match bilateral with
  | None => []
  | Some b =>
      map (fun f => {| Partner.name := DataContext.getCountryName countryMeta (BilateralFlow.from f);
                       Partner.ttw := BilateralFlow.ttw f;
                       Partner.iso3 := BilateralFlow.from f |})
          (Js.slice0 10
             (Js.sort (byTtwDesc BilateralFlow.ttw)
                (filter (fun f => String.eqb (BilateralFlow.to f) iso3)
                        (flowsAll b yearStr))))
  end.

(** Exports from the selected country. *)
Definition topDest : list Partner.t :=
  match bilateral with
  | None => []
  | Some b =>
      map (fun f => {| Partner.name := DataContext.getCountryName countryMeta (BilateralFlow.to f);
                       Partner.ttw := BilateralFlow.ttw f;
                       Partner.iso3 := BilateralFlow.to f |})
          (Js.slice0 10
             (Js.sort (byTtwDesc BilateralFlow.ttw)
                (filter (fun f => String.eqb (BilateralFlow.from f) iso3)
                        (flowsAll b yearStr))))
  end.
End Partners.

(** The country search box. *)
Definition filtered (dropdownLists : option DropdownLists.t) (search : string)
    : list CountryListItem.t :=
  match dropdownLists with
  | None => []
  | Some d =>
      let q := Js.toLowerCase search in
      Js.slice0 20
        (filter (fun c =>
                   Js.includes (Js.toLowerCase (CountryListItem.name c)) q
                   || Js.includes (Js.toLowerCase (CountryListItem.iso3 c)) q)
                (DropdownLists.countries d))
  end.

Module ProducerPoint.
Record t : Type := mk
  { year : Z; Domestic : Z; Exports : Z }.
End ProducerPoint.


End CountryExplorer.

(** ** Transport factors (views/CommodityExplorer.tsx) *)

Module CommodityExplorer.

Record FactorRow : Type := mkFactorRow
  { mode : string; modeKey : string; ttw : Q; distance : Q; routes : Q }.

(** [commodity.toLowerCase().split(',')[0].split(' ')[0]] *)
Definition firstWord (commodity : string) : string :=
  Js.splitHead " "%char (Js.splitHead ","%char (Js.toLowerCase commodity)).

(** The partial match: the first key whose lower-cased text contains
    the first word of the commodity. *)
Definition partialKey (transportFactors : TransportFactors) (commodity : string)
    : option string :=
  find (fun k => Js.includes (Js.toLowerCase k) (firstWord commodity))
       (Js.keys transportFactors).

(** The value of [tf] once both lookups are done; [if (key)] also
    skips a key that is the empty string. *)
Definition factorsTf (transportFactors : TransportFactors) (commodity : string)
    : option (Js.Obj TransportModeFactor.t) :=
  match Js.get transportFactors commodity with
  | Some tf => Some tf
  | None =>
      match partialKey transportFactors commodity with
      | Some key =>
          if Js.truthyStr key then Js.get transportFactors key else None
      | None => None
      end
  end.

Definition factorRows (tf : Js.Obj TransportModeFactor.t) : list FactorRow :=
  Js.sort (byTtwDesc ttw)
    (map (fun e : string * TransportModeFactor.t =>
            {| mode := Js.capitalize (fst e);
               modeKey := fst e;
               ttw := TransportModeFactor.ttw (snd e);
               distance := TransportModeFactor.distance (snd e);
               routes := TransportModeFactor.routes (snd e) |})
         (Js.entries tf)).

Definition factors (transportFactors : option TransportFactors) (commodity : string)
    : list FactorRow :=
  match transportFactors with
  | None => []
  | Some table =>
      match factorsTf table commodity with
      | None => []
      | Some tf => factorRows tf
      end
  end.

(** The commodity search box. *)
Definition filtered (dropdownLists : option DropdownLists.t) (search : string)
    : list string :=
  match dropdownLists with
  | None => []
  | Some d =>
      let q := Js.toLowerCase search in
      Js.slice0 20
        (filter (fun c => Js.includes (Js.toLowerCase c) q)
                (DropdownLists.commodities d))
  end.

(** The ratio of the insight callout,
    [factors[0].ttw / (factors[factors.length - 1].ttw || 1)], shown
    when there are at least two rows; [None] when it is not shown. *)
Definition insightRatio (factors : list FactorRow) : option Q :=
  if (2 <=? List.length factors)%nat
  then
    match Js.index factors 0,
          Js.index factors (Z.of_nat (List.length factors) - 1) with
    | Some first, Some last =>
        Some (ttw first / (if Js.truthy (ttw last) then ttw last else 1))
    | _, _ => None
    end
  else None.

End CommodityExplorer.

(** ** The flow map (BilateralFlowMap) *)

Module BilateralFlowMap.

Section Flows.
Variable bilateral : option BilateralTopFlows.
Variable bilateralByCommodity : option BilateralByCommodity.
Variables selectedCommodity yearStr modeFilter : string.
Variable minEmissions : Q.

Definition allFlows : list BilateralFlow.t :=
  match Js.truthyStr selectedCommodity, bilateralByCommodity with
  | true, Some byCommodity =>
      Js.nullish (Js.oget (Js.get byCommodity selectedCommodity) yearStr) []
  | _, _ =>
      match Js.oget bilateral yearStr with
      | None => []
      | Some byMode => Js.nullish (Js.get byMode modeFilter) []
      end
  end.

(** The predicate of the mode filter applied under a commodity. *)
Definition modeKeeps (f : BilateralFlow.t) : bool :=
  if negb (String.eqb modeFilter "all")
     && negb (String.eqb (BilateralFlow.dominant_mode f) modeFilter)
  then false else true.

(** [flows] just before the threshold filter. *)
Definition modeFiltered : list BilateralFlow.t :=
  if Js.truthyStr selectedCommodity then filter modeKeeps allFlows else allFlows.

Definition filteredFlows : list BilateralFlow.t :=
  Js.slice0 100
    (filter (fun f => Js.geb (BilateralFlow.ttw f) minEmissions) modeFiltered).
End Flows.

(** [Math.max(...filteredFlows.map(f => f.ttw), 1)] *)
Definition maxTtw (filteredFlows : list BilateralFlow.t) : Q :=
  Js.Math_max_spread (map BilateralFlow.ttw filteredFlows) 1.

(** The upper end of the threshold slider. *)
Definition sliderMax (allFlows : list BilateralFlow.t) : Q :=
  Js.Math_max_spread (map BilateralFlow.ttw allFlows) 100000.

(** Width and opacity of the line drawn for a flow. *)
Definition strokeWidth (maxTtw : Q) (flow : BilateralFlow.t) : Q :=
  Js.Math_max (1 # 2) ((BilateralFlow.ttw flow / maxTtw) * 4).

Definition strokeOpacity (hovered : bool) (maxTtw : Q) (flow : BilateralFlow.t) : Q :=
  if hovered then 1 else (4 # 10) + (BilateralFlow.ttw flow / maxTtw) * (4 # 10).

Module Corridor.
Record t : Type := mk
  { corridor : string; ttw : Q; mode : string }.
End Corridor.

Definition topCorridors (countryMeta : option CountryMetadata)
    (filteredFlows : list BilateralFlow.t) : list Corridor.t :=
  map (fun f =>
         {| Corridor.corridor :=
              String.append
                (Js.sliceStr 12 (DataContext.getCountryName countryMeta (BilateralFlow.from f)))
                (String.append " → "
                   (Js.sliceStr 12 (DataContext.getCountryName countryMeta (BilateralFlow.to f))));
            Corridor.ttw := BilateralFlow.ttw f;
            Corridor.mode := BilateralFlow.dominant_mode f |})
      (Js.slice0 20 filteredFlows).

(** The commodity dropdown. *)
Definition commodityList (bilateralByCommodity : option BilateralByCommodity)
    (commoditySearch : string) : list string :=
  match bilateralByCommodity with
  | None => []
  | Some byCommodity =>
      let list := Js.sortStrings (Js.keys byCommodity) in
      if Js.truthyStr commoditySearch
      then
        let q := Js.toLowerCase commoditySearch in
        filter (fun c => Js.includes (Js.toLowerCase c) q) list
      else list
  end.

End BilateralFlowMap.

(** ** utils/formatters.ts

    [Number.prototype.toFixed] is a parameter of the formatters: what
    is proved about them holds for any rendering of the digits. *)

Module Formatters.

Section WithToFixed.
Variable toFixed : Q -> nat -> string.

Definition formatEmissions (tco2 : Q) : string :=
  if Js.geb tco2 1000000 then String.append (toFixed (tco2 / 1000000) 1) " Mt"
  else if Js.geb tco2 1000 then String.append (toFixed (tco2 / 1000) 1) "k t"
  else String.append (toFixed tco2 0) " t".

Definition formatEmissionsMt (mtco2 : Q) : string := toFixed mtco2 1.

Definition formatFoodMiles (tkm : Q) : string :=
  if Js.geb tkm 1000000000000
  then String.append (toFixed (tkm / 1000000000000) 1) " Tt-km"
  else if Js.geb tkm 1000000000
  then String.append (toFixed (tkm / 1000000000) 1) " Bt-km"
  else if Js.geb tkm 1000000
  then String.append (toFixed (tkm / 1000000) 1) " Mt-km"
  else if Js.geb tkm 1000
  then String.append (toFixed (tkm / 1000) 0) "k t-km"
  else String.append (toFixed tkm 0) " t-km".

Definition formatNumber (n : Q) : string :=
  if Js.geb n 1000000000 then String.append (toFixed (n / 1000000000) 1) "B"
  else if Js.geb n 1000000 then String.append (toFixed (n / 1000000) 1) "M"
  else if Js.geb n 1000 then String.append (toFixed (n / 1000) 0) "k"
  else toFixed n 0.

Definition formatPercent (value : Q) : string :=
  String.append (toFixed value 1) "%".

Definition formatCost (usd : Q) : string :=
  if Js.geb usd 1000000000
  then String.append "$" (String.append (toFixed (usd / 1000000000) 1) "B")
  else if Js.geb usd 1000000
  then String.append "$" (String.append (toFixed (usd / 1000000) 1) "M")
  else if Js.geb usd 1000
  then String.append "$" (String.append (toFixed (usd / 1000) 0) "k")
  else String.append "$" (toFixed usd 0).

Definition formatDistance (km : Q) : string :=
  if Js.geb km 1000 then String.append (toFixed (km / 1000) 0) "k km"
  else String.append (toFixed km 0) " km".

End WithToFixed.

End Formatters.

(** ** Notions used to state the properties *)

Section Notions.
Context {R : Type} `{Route R}.

(** Every [ttw] stored in the table is non-negative. *)
Definition nonnegRoute (r : option R) : Prop :=
  match r with
  | Some x => 0 <= ttw x
  | None => True
  end.

Definition nonnegEntry (e : YearEntry R) : Prop :=
  nonnegRoute (bilateral e) /\ nonnegRoute (domestic e).

Definition nonnegDataset (table : EntityDataset R) : Prop :=
  Forall (fun kv => Forall (fun ye => nonnegEntry (snd ye)) (snd kv)) table.

(** An entity has data for a year when its record for that year holds a
    bilateral or a domestic route. *)
Definition hasData (data : YearData R) (yearStr : string) : bool :=
  match Js.get data yearStr with
  | Some e =>
      match bilateral e, domestic e with
      | None, None => false
      | _, _ => true
      end
  | None => false
  end.

(** The count of entities with any data for the year, in the words of the
    ranking contract. *)
Definition countWithData (table : EntityDataset R) (yearStr : string) : Z :=
  Z.of_nat (List.length (filter (fun kv => hasData (snd kv) yearStr) table)).

(** Sum of a list of numbers. *)
Definition sumQ (l : list Q) : Q := fold_right Qplus 0 l.

(** The bilateral and the domestic [ttw] of the year, summed over every
    entity of the table through the metric resolution. *)
Definition bilateralSum (table : EntityDataset R) (yearStr : string) : Q :=
  sumQ (map (fun e => bilTtw (Some table) e yearStr) (Js.keys table)).

Definition domesticSum (table : EntityDataset R) (yearStr : string) : Q :=
  sumQ (map (fun e => domTtw (Some table) e yearStr) (Js.keys table)).

End Notions.

(** Descending order on a key. *)
Definition descBy {A : Type} (f : A -> Q) (a b : A) : Prop := f b <= f a.

(** The years of the series, in the order the series lists them. *)
Definition seriesYears : list Z := map (fun i => (2010 + Z.of_nat i)%Z) (seq 0 14).

(** ** Sample tables *)

Definition route (t fm : Q) : RouteEmissions.t :=
  RouteEmissions.mk 0 t 0 fm 1 None.

Definition sampleConsumers : ConsumerCountries :=
  [ ("USA", [ ("2023", mkYearEntry None (Some (route 500000 1000000000)));
              ("2022", mkYearEntry (Some (route 1499 5)) (Some (route 2500 7))) ]);
    ("MEX", [ ("2022", mkYearEntry (Some (route 300 1)) None) ]);
    ("CAN", [ ("2023", mkYearEntry (Some (route 500000 2)) None) ]) ]%string.

Definition flow (f t : string) (e : Q) (m : string) : BilateralFlow.t :=
  BilateralFlow.mk f t 0 e 0 0 0 1 m.

Definition sampleBucket : list BilateralFlow.t :=
  [ flow "MEX" "USA" 50000 "air"; flow "CAN" "USA" 150000 "air";
    flow "USA" "CAN" 200000 "air"; flow "USA" "MEX" 90000 "air";
    flow "CHN" "USA" 300000 "air" ]%string.

Definition sampleFlows : BilateralTopFlows :=
  [ ("2023", [ ("all", sampleBucket); ("air", sampleBucket) ]) ]%string.

Definition sampleFactors : TransportFactors :=
  [ ("Wheat flour", [ ("maritime", TransportModeFactor.mk 9 7 8000 12) ]);
    ("Wheat", [ ("land", TransportModeFactor.mk 3 2 900 40);
                ("maritime", TransportModeFactor.mk 5 4 7000 25) ]) ]%string.

(** ** Further notions and sample tables *)

(** [sub] occurs in [s]. *)
Definition occursIn (sub s : string) : Prop :=
  exists pre post, s = String.append pre (String.append sub post).

(** Ascending order of strings, code unit by code unit. *)
Definition ascStr (a b : string) : Prop := String.leb a b = true.

Definition sampleGlobal : GlobalTimeseries.t :=
  GlobalTimeseries.mk [2021; 2022; 2023]%Z [900; 950; 1000] [70; 75; 80]
    [50; 55; 60] [20; 20; 20] [4000; 4100; 4200] [2023]%Z.

Definition sampleDropdown : DropdownLists.t :=
  DropdownLists.mk
    [ "Wheat"; "Wheat flour"; "Rice"; "Maize" ]%string
    [ CountryListItem.mk "USA" "United States" "Americas";
      CountryListItem.mk "MEX" "Mexico" "Americas";
      CountryListItem.mk "CAN" "Canada" "Americas" ]%string.

Definition commodityRoute (t fm : Q) : CommodityRouteData.t :=
  CommodityRouteData.mk 0 t fm 1.

Definition sampleCommodities : Commodities :=
  [ ("Wheat", [ ("2023", mkYearEntry (Some (commodityRoute 400 1))
                                     (Some (commodityRoute 100 1))) ]);
    ("Food preparations not elsewhere specified",
       [ ("2023", mkYearEntry (Some (commodityRoute 900 1)) None) ]);
    ("Rice", [ ("2022", mkYearEntry None (Some (commodityRoute 50 1))) ]) ]%string.

Definition sampleByCommodity : BilateralByCommodity :=
  [ ("Wheat", [ ("2023", sampleBucket) ]);
    ("Rice", [ ("2023", []) ]);
    ("Maize", [ ("2023", []) ]) ]%string.

(** * Properties *)

(** ** The prelude *)

Lemma get_In {V : Type} (o : Js.Obj V) (k : string) (v : V) :
  Js.get o k = Some v -> In (k, v) o.
Proof.
  induction o as [|[k' v'] o IH]; simpl; [discriminate|].
  destruct (String.eqb_spec k k') as [->|Hne].
  - intros [= ->]. now left.
  - intros Hg. right. now apply IH.
Qed.

Lemma get_None_keys {V : Type} (o : Js.Obj V) (k : string) :
  Js.get o k = None <-> ~ In k (Js.keys o).
Proof.
  induction o as [|[k' v'] o IH]; simpl.
  - tauto.
  - destruct (String.eqb_spec k k') as [->|Hne].
    + split; [discriminate|]. intros Hn. exfalso. apply Hn. now left.
    + rewrite IH. split.
      * intros Hn [Heq|Hin]; [now apply Hne|now apply Hn].
      * intros Hn Hin. apply Hn. now right.
Qed.

Lemma get_Some_keys {V : Type} (o : Js.Obj V) (k : string) :
  In k (Js.keys o) -> exists v, Js.get o k = Some v.
Proof.
  intros Hin. destruct (Js.get o k) as [v|] eqn:Hg.
  - now exists v.
  - apply get_None_keys in Hg. contradiction.
Qed.

Lemma In_firstn {A : Type} (n : nat) (l : list A) (x : A) :
  In x (firstn n l) -> In x l.
Proof.
  intros Hx. rewrite <- (firstn_skipn n l). apply in_or_app. now left.
Qed.

Section SortFacts.
Context {A : Type} (f : A -> Q).

Local Abbreviation cmp := (byTtwDesc f).

Lemma cmp_le x y : Qle_bool (cmp x y) 0 = true <-> f y <= f x.
Proof.
  unfold byTtwDesc. rewrite Qle_bool_iff. split; intros Hle; lra.
Qed.

Lemma cmp_gt x y : Qle_bool (cmp x y) 0 = false -> f x < f y.
Proof.
  intros Hb. apply Qnot_le_lt. intros Hle.
  apply cmp_le in Hle. congruence.
Qed.

Lemma insert_perm x l : Permutation (Js.insert cmp x l) (x :: l).
Proof.
  induction l as [|y l IH]; simpl.
  - apply Permutation_refl.
  - destruct (Qle_bool (cmp x y) 0).
    + apply Permutation_refl.
    + eapply Permutation_trans; [apply perm_skip, IH|apply perm_swap].
Qed.

Lemma sort_perm l : Permutation (Js.sort cmp l) l.
Proof.
  induction l as [|x l IH]; simpl.
  - apply perm_nil.
  - eapply Permutation_trans; [apply insert_perm|now apply perm_skip].
Qed.

Lemma sort_length l : List.length (Js.sort cmp l) = List.length l.
Proof. apply Permutation_length, sort_perm. Qed.

Lemma sort_In x l : In x (Js.sort cmp l) <-> In x l.
Proof.
  split; apply Permutation_in; [|apply Permutation_sym]; apply sort_perm.
Qed.

Lemma insert_sorted x l :
  StronglySorted (descBy f) l -> StronglySorted (descBy f) (Js.insert cmp x l).
Proof.
  induction 1 as [|y l Hs IH Hall]; simpl.
  - constructor; constructor.
  - destruct (Qle_bool (cmp x y) 0) eqn:Hb.
    + apply cmp_le in Hb. constructor.
      * now constructor.
      * constructor; [exact Hb|].
        eapply Forall_impl; [|exact Hall].
        unfold descBy. intros z Hz. lra.
    + apply cmp_gt in Hb. constructor; [exact IH|].
      rewrite Forall_forall. intros z Hz.
      apply (Permutation_in _ (insert_perm x l)) in Hz.
      destruct Hz as [<-|Hz].
      * unfold descBy. lra.
      * rewrite Forall_forall in Hall. now apply Hall.
Qed.

Lemma sort_sorted l : StronglySorted (descBy f) (Js.sort cmp l).
Proof.
  induction l as [|x l IH]; simpl.
  - constructor.
  - now apply insert_sorted.
Qed.

(** Insertion only moves [x] past elements that are strictly larger, so
    the elements of any one value keep their order. *)
Lemma insert_stable v x l :
  filter (fun e => Qeq_bool (f e) v) (Js.insert cmp x l)
  = filter (fun e => Qeq_bool (f e) v) (x :: l).
Proof.
  induction l as [|y l IH]; [reflexivity|].
  cbn [Js.insert]. destruct (Qle_bool (cmp x y) 0) eqn:Hb; [reflexivity|].
  apply cmp_gt in Hb. cbn [filter] in *. rewrite IH.
  destruct (Qeq_bool (f x) v) eqn:Hx; [|reflexivity].
  destruct (Qeq_bool (f y) v) eqn:Hy; [|reflexivity].
  apply Qeq_bool_eq in Hx, Hy. lra.
Qed.

Lemma sort_stable v l :
  filter (fun e => Qeq_bool (f e) v) (Js.sort cmp l)
  = filter (fun e => Qeq_bool (f e) v) l.
Proof.
  induction l as [|x l IH]; [reflexivity|].
  cbn [Js.sort fold_right]. rewrite insert_stable.
  cbn [filter]. fold (Js.sort cmp l). now rewrite IH.
Qed.

(** A descending list is determined by the order it gives to the
    elements of each value: whatever stable sort the engine runs, the
    result is the same list. *)
Lemma stable_sorted_unique l1 : forall l2,
  StronglySorted (descBy f) l1 ->
  StronglySorted (descBy f) l2 ->
  (forall v, filter (fun e => Qeq_bool (f e) v) l1
             = filter (fun e => Qeq_bool (f e) v) l2) ->
  l1 = l2.
Proof.
  induction l1 as [|a l1 IH]; intros l2 Hs1 Hs2 Hf.
  - destruct l2 as [|b l2]; [reflexivity|].
    specialize (Hf (f b)). cbn [filter] in Hf.
    rewrite Qeq_bool_refl in Hf. discriminate.
  - destruct l2 as [|b l2].
    + specialize (Hf (f a)). cbn [filter] in Hf.
      rewrite Qeq_bool_refl in Hf. discriminate.
    + inversion Hs1 as [|? ? Hs1' Ha]; subst.
      inversion Hs2 as [|? ? Hs2' Hb]; subst.
      rewrite Forall_forall in Ha, Hb.
      assert (Hab : f a == f b).
      { apply Qle_antisym.
        - assert (Hin : In a (filter (fun e => Qeq_bool (f e) (f a)) (b :: l2))).
          { rewrite <- Hf. cbn [filter]. rewrite Qeq_bool_refl. now left. }
          apply filter_In in Hin. destruct Hin as [[->|Hin] _].
          + apply Qle_refl.
          + now apply Hb.
        - assert (Hin : In b (filter (fun e => Qeq_bool (f e) (f b)) (a :: l1))).
          { rewrite Hf. cbn [filter]. rewrite Qeq_bool_refl. now left. }
          apply filter_In in Hin. destruct Hin as [[->|Hin] _].
          + apply Qle_refl.
          + now apply Ha. }
      assert (Heq : a = b).
      { specialize (Hf (f a)). cbn [filter] in Hf.
        rewrite Qeq_bool_refl in Hf.
        assert (Hb' : Qeq_bool (f b) (f a) = true)
          by (apply Qeq_bool_iff; now symmetry).
        rewrite Hb' in Hf. now injection Hf. }
      subst b. f_equal. apply IH; try assumption.
      intros v. specialize (Hf v). cbn [filter] in Hf.
      destruct (Qeq_bool (f a) v); [now injection Hf|exact Hf].
Qed.

Lemma sorted_firstn n l :
  StronglySorted (descBy f) l -> StronglySorted (descBy f) (firstn n l).
Proof.
  intros Hs. revert n. induction Hs as [|x l Hs IH Hall]; intros [|n]; simpl;
    try constructor.
  - apply IH.
  - rewrite Forall_forall in *. intros y Hy. apply Hall.
    eapply In_firstn; exact Hy.
Qed.

End SortFacts.

Lemma sorted_map {A B : Type} (f : A -> Q) (g : B -> Q) (h : A -> B) l :
  (forall a, g (h a) = f a) ->
  StronglySorted (descBy f) l -> StronglySorted (descBy g) (map h l).
Proof.
  intros Hgh. induction 1 as [|x l Hs IH Hall]; simpl; constructor.
  - exact IH.
  - rewrite Forall_forall in *. intros y Hy.
    apply in_map_iff in Hy. destruct Hy as [a [<- Ha]].
    unfold descBy. rewrite !Hgh. now apply Hall.
Qed.

Lemma findIndexFrom_spec {A : Type} (p : A -> bool) (l : list A) : forall i,
  (Js.findIndexFrom p l i = (-1)%Z /\ (0 <= i -> Forall (fun x => p x = false) l)%Z)
  \/ (exists k e,
         Js.findIndexFrom p l i = (i + Z.of_nat k)%Z
         /\ nth_error l k = Some e /\ p e = true
         /\ forall j e', (j < k)%nat -> nth_error l j = Some e' -> p e' = false).
Proof.
  induction l as [|x l IH]; intros i; simpl.
  - left. split; [reflexivity|constructor].
  - destruct (p x) eqn:Hx.
    + right. exists 0%nat, x. repeat split.
      * lia.
      * exact Hx.
      * intros j e' Hj. lia.
    + destruct (IH (i + 1)%Z) as [[Hm Hall]|[k [e [Hk [Hn [He Hlt]]]]]].
      * destruct (Z.eq_dec i (-1)) as [->|Hi].
        -- left. split; [exact Hm|]. lia.
        -- left. split; [exact Hm|]. intros Hi0. constructor; [exact Hx|].
           apply Hall. lia.
      * right. exists (S k), e. repeat split.
        -- rewrite Hk. lia.
        -- exact Hn.
        -- exact He.
        -- intros [|j] e' Hj; simpl.
           ++ now intros [= <-].
           ++ apply Hlt. lia.
Qed.

(** ** Metric resolution *)

Section ResolverFacts.
Context {R : Type} `{Route R}.

Lemma nonneg_yd (table : EntityDataset R) (entity yearStr : string) (e : YearEntry R) :
  nonnegDataset table ->
  yd (Some table) entity yearStr = Some e -> nonnegEntry e.
Proof.
  unfold yd, entityData, nonnegDataset. cbn [Js.oget].
  intros Hnn. destruct (Js.get table entity) as [data|] eqn:Hd; [|discriminate].
  cbn [Js.oget]. intros Hy.
  apply get_In in Hd. apply get_In in Hy.
  rewrite Forall_forall in Hnn. specialize (Hnn _ Hd). cbn [snd] in Hnn.
  rewrite Forall_forall in Hnn. exact (Hnn _ Hy).
Qed.

Lemma bilTtw_nonneg (table : EntityDataset R) (entity yearStr : string) :
  nonnegDataset table -> 0 <= bilTtw (Some table) entity yearStr.
Proof.
  intros Hnn. unfold bilTtw.
  destruct (yd (Some table) entity yearStr) as [e|] eqn:Hy; cbn; [|lra].
  destruct (nonneg_yd _ _ _ _ Hnn Hy) as [Hb _].
  destruct (bilateral e); cbn in *; [exact Hb|lra].
Qed.

Lemma domTtw_nonneg (table : EntityDataset R) (entity yearStr : string) :
  nonnegDataset table -> 0 <= domTtw (Some table) entity yearStr.
Proof.
  intros Hnn. unfold domTtw.
  destruct (yd (Some table) entity yearStr) as [e|] eqn:Hy; cbn; [|lra].
  destruct (nonneg_yd _ _ _ _ Hnn Hy) as [_ Hd].
  destruct (domestic e); cbn in *; [exact Hd|lra].
Qed.

(** C1. For every table (loaded or not), entity and year, the resolved
    total is the sum of the resolved bilateral and domestic terms; with
    non-negative [ttw] fields the three values are non-negative; and a
    missing entity, a missing year, or a missing route resolves its term
    to [0]. *)
Theorem resolve_total_nonneg_zero_default
    (dataset : option (EntityDataset R)) (entity yearStr : string) :
  (forall table, dataset = Some table -> nonnegDataset table) ->
  totalTtw dataset entity yearStr
    = bilTtw dataset entity yearStr + domTtw dataset entity yearStr
  /\ 0 <= bilTtw dataset entity yearStr
  /\ 0 <= domTtw dataset entity yearStr
  /\ 0 <= totalTtw dataset entity yearStr
  /\ (entityData dataset entity = None ->
        bilTtw dataset entity yearStr = 0 /\ domTtw dataset entity yearStr = 0
        /\ totalTtw dataset entity yearStr = 0)
  /\ (yd dataset entity yearStr = None ->
        bilTtw dataset entity yearStr = 0 /\ domTtw dataset entity yearStr = 0
        /\ totalTtw dataset entity yearStr = 0)
  /\ (Js.ofield (yd dataset entity yearStr) bilateral = None ->
        bilTtw dataset entity yearStr = 0)
  /\ (Js.ofield (yd dataset entity yearStr) domestic = None ->
        domTtw dataset entity yearStr = 0).
Proof.
  intros Hnn.
  assert (Hb : 0 <= bilTtw dataset entity yearStr).
  { destruct dataset as [table|]; [apply bilTtw_nonneg; now apply Hnn|].
    cbn. lra. }
  assert (Hd : 0 <= domTtw dataset entity yearStr).
  { destruct dataset as [table|]; [apply domTtw_nonneg; now apply Hnn|].
    cbn. lra. }
  assert (Hyd : yd dataset entity yearStr = None ->
                bilTtw dataset entity yearStr = 0 /\ domTtw dataset entity yearStr = 0
                /\ totalTtw dataset entity yearStr = 0).
  { unfold totalTtw, bilTtw, domTtw. intros ->. now cbn. }
  split; [reflexivity|]. split; [exact Hb|]. split; [exact Hd|].
  split; [unfold totalTtw; lra|].
  split; [|split; [exact Hyd|split]].
  - intros Hnone. apply Hyd. unfold yd. now rewrite Hnone.
  - unfold bilTtw. now intros ->.
  - unfold domTtw. now intros ->.
Qed.

End ResolverFacts.

Lemma sampleConsumers_nonneg : nonnegDataset sampleConsumers.
Proof.
  unfold nonnegDataset, sampleConsumers, nonnegEntry.
  repeat (constructor; cbn); try exact I; unfold Qle; cbn; lia.
Qed.

(** The scenario of the resolver on the sample table: the United States
    in 2023 have a domestic route only. *)
Lemma resolve_total_nonneg_zero_default_witness :
  totalTtw (Some sampleConsumers) "USA" "2023"
    = bilTtw (Some sampleConsumers) "USA" "2023"
      + domTtw (Some sampleConsumers) "USA" "2023"
  /\ bilTtw (Some sampleConsumers) "USA" "2023" = 0
  /\ domTtw (Some sampleConsumers) "USA" "2023" = 500000
  /\ totalTtw (Some sampleConsumers) "USA" "2023" = 500000
  /\ totalTtw (Some sampleConsumers) "FRA" "2023" = 0.
Proof.
  destruct (resolve_total_nonneg_zero_default
              (Some sampleConsumers) "USA"%string "2023"%string) as [Ht _].
  - intros table [= <-]. exact sampleConsumers_nonneg.
  - split; [exact Ht|]. repeat split.
Defined.

(** ** Yearly series *)

Section SeriesFacts.
Context {R : Type} `{Route R}.


Lemma Math_round_zero (x : Q) : x == 0 -> Js.Math_round (x / 1000) = 0%Z.
Proof.
  intros Hx. unfold Js.Math_round.
  assert (Hh : x / 1000 + (1 # 2) == 1 # 2) by (rewrite Hx; reflexivity).
  now rewrite Hh.
Qed.

Lemma Math_round_nearest (x : Q) :
  x - (1 # 2) < inject_Z (Js.Math_round x) /\ inject_Z (Js.Math_round x) <= x + (1 # 2).
Proof.
  unfold Js.Math_round. split.
  - pose proof (Qlt_floor (x + (1 # 2))) as Hlt.
    rewrite inject_Z_plus in Hlt. change (inject_Z 1) with 1 in Hlt. lra.
  - apply Qfloor_le.
Qed.

Lemma roundedThousands_spec (r : option R) :
  roundedThousands r = Js.Math_round (Js.nullish (Js.omap r ttw) 0 / 1000).
Proof.
  unfold roundedThousands. destruct r as [x|]; cbn [Js.omap Js.nullish].
  - unfold Js.truthy. destruct (Qeq_bool (ttw x) 0) eqn:Hz; cbn [negb].
    + apply Qeq_bool_eq in Hz. now rewrite Math_round_zero.
    + reflexivity.
  - reflexivity.
Qed.


(** C8. Every point of the series carries, for both routes, the resolved
    metric of its year divided by 1000 and then rounded: the nearest
    integer to the scaled value, halves going up. *)
Theorem timeSeries_rounds_after_scaling
    (dataset : option (EntityDataset R)) (entity : string) (p : SeriesPoint) :
  In p (timeSeries dataset entity) ->
  let dom := domTtw dataset entity (Js.String_ (year p)) in
  let bil := bilTtw dataset entity (Js.String_ (year p)) in
  Domestic p = Js.Math_round (dom / 1000)
  /\ International p = Js.Math_round (bil / 1000)
  /\ dom / 1000 - (1 # 2) < inject_Z (Domestic p) <= dom / 1000 + (1 # 2)
  /\ bil / 1000 - (1 # 2) < inject_Z (International p) <= bil / 1000 + (1 # 2).
Proof.
  intros Hp dom bil.
  assert (Hd : Domestic p = Js.Math_round (dom / 1000)
               /\ International p = Js.Math_round (bil / 1000)).
  { subst dom bil. unfold timeSeries in Hp. unfold domTtw, bilTtw, yd.
    destruct (entityData dataset entity) as [countryData|]; [|contradiction].
    apply in_map_iff in Hp. destruct Hp as [i [<- _]].
    cbn [seriesPoint year Domestic International Js.oget].
    now rewrite !roundedThousands_spec. }
  destruct Hd as [Hd Hi]. rewrite Hd, Hi.
  repeat split; try apply Math_round_nearest.
Qed.

End SeriesFacts.



(** The United States' 2022 routes of the sample table: 2500 gives 3
    (2.5 goes up) and 1499 gives 1. *)
Lemma timeSeries_rounds_after_scaling_witness :
  Domestic (mkSeriesPoint 2022 3 1) = Js.Math_round (2500 / 1000)
  /\ International (mkSeriesPoint 2022 3 1) = Js.Math_round (1499 / 1000).
Proof.
  destruct (timeSeries_rounds_after_scaling
              (Some sampleConsumers) "USA"%string (mkSeriesPoint 2022 3 1))
    as [Hd [Hi _]].
  - unfold timeSeries. cbn. do 12 right. now left.
  - split; [exact Hd|exact Hi].
Defined.

(** ** Rankings *)

Section RankingFacts.
Context {R : Type} `{Route R}.

Lemma rankEntries_names (table : EntityDataset R) (yearStr : string) :
  map RankEntry.name (rankEntries table yearStr) = Js.keys table.
Proof.
  unfold rankEntries, Js.keys, Js.entries. rewrite map_map. reflexivity.
Qed.

Lemma sorted_names (table : EntityDataset R) (yearStr commodity : string) :
  In commodity (map RankEntry.name (sorted table yearStr)) <-> In commodity (Js.keys table).
Proof.
  rewrite <- (rankEntries_names table yearStr). unfold sorted.
  split; apply Permutation_in, Permutation_map;
    [|apply Permutation_sym]; apply sort_perm.
Qed.

(** C7. The ranking is a rearrangement of the table's entries that is
    descending in value and keeps, for every value, the entities of that
    value in the key order of the table; it is the only list with these
    three properties, and equal inputs give equal rankings. The top
    consumers are the first 15 rows of such a ranking of the consumer
    table. *)
Theorem sorted_descending_stable (table : EntityDataset R) (yearStr : string) :
  StronglySorted (descBy RankEntry.ttw) (sorted table yearStr)
  /\ Permutation (sorted table yearStr) (rankEntries table yearStr)
  /\ (forall v, filter (fun e => Qeq_bool (RankEntry.ttw e) v) (sorted table yearStr)
                = filter (fun e => Qeq_bool (RankEntry.ttw e) v) (rankEntries table yearStr))
  /\ (forall l, StronglySorted (descBy RankEntry.ttw) l ->
                (forall v, filter (fun e => Qeq_bool (RankEntry.ttw e) v) l
                           = filter (fun e => Qeq_bool (RankEntry.ttw e) v)
                                    (rankEntries table yearStr)) ->
                l = sorted table yearStr)
  /\ (forall table' yearStr', table' = table -> yearStr' = yearStr ->
        sorted table' yearStr' = sorted table yearStr)
  /\ (forall (consumers : ConsumerCountries) (countryMeta : option CountryMetadata),
        exists ranking,
          GlobalOverview.topConsumers (Some consumers) countryMeta yearStr
            = firstn 15 ranking
          /\ StronglySorted (descBy GlobalOverview.ConsumerRow.ttw) ranking
          /\ Permutation ranking
               (GlobalOverview.consumerRows countryMeta consumers yearStr)
          /\ forall v,
               filter (fun e => Qeq_bool (GlobalOverview.ConsumerRow.ttw e) v) ranking
               = filter (fun e => Qeq_bool (GlobalOverview.ConsumerRow.ttw e) v)
                        (GlobalOverview.consumerRows countryMeta consumers yearStr)).
Proof.
  unfold sorted. split; [apply sort_sorted|]. split; [apply sort_perm|].
  split; [intros v; apply sort_stable|]. split; [|split].
  - intros l Hs Hf. apply (stable_sorted_unique RankEntry.ttw); try assumption.
    + apply sort_sorted.
    + intros v. rewrite Hf. symmetry. apply sort_stable.
  - now intros table' yearStr' -> ->.
  - intros consumers countryMeta.
    exists (Js.sort (byTtwDesc GlobalOverview.ConsumerRow.ttw)
              (GlobalOverview.consumerRows countryMeta consumers yearStr)).
    split; [reflexivity|]. split; [apply sort_sorted|].
    split; [apply sort_perm|]. intros v. apply sort_stable.
Qed.

(** C4, as the code has it. The total is the number of entities of the
    table, with or without data for the year. The position is 0 exactly
    when the entity is not a key of the table; otherwise it is the
    1-based index of the first entry of the full descending ranking that
    bears the entity's name. *)
Theorem allRanked_position_and_total
    (table : EntityDataset R) (commodity yearStr : string) :
  let r := allRanked (Some table) commodity yearStr in
  total r = Z.of_nat (List.length table)
  /\ (~ In commodity (Js.keys table) -> rank r = 0%Z)
  /\ (In commodity (Js.keys table) ->
        (1 <= rank r <= total r)%Z
        /\ exists e,
             nth_error (sorted table yearStr) (Z.to_nat (rank r - 1)) = Some e
             /\ RankEntry.name e = commodity
             /\ forall j e', (j < Z.to_nat (rank r - 1))%nat ->
                  nth_error (sorted table yearStr) j = Some e' ->
                  RankEntry.name e' <> commodity).
Proof.
  cbn zeta. unfold allRanked. cbn [rank total].
  split.
  { unfold sorted. rewrite sort_length. unfold rankEntries, Js.entries.
    now rewrite length_map. }
  unfold Js.findIndex.
  destruct (findIndexFrom_spec (fun c => String.eqb (RankEntry.name c) commodity)
              (sorted table yearStr) 0)
    as [[Hm Hall]|[k [e [Hk [Hn [He Hlt]]]]]].
  - split.
    + intros _. rewrite Hm. reflexivity.
    + intros Hin. exfalso. apply sorted_names with (yearStr := yearStr) in Hin.
      apply in_map_iff in Hin. destruct Hin as [e [He Hin]].
      specialize (Hall (Z.le_refl 0)). rewrite Forall_forall in Hall.
      specialize (Hall e Hin). cbn in Hall. rewrite He, String.eqb_refl in Hall.
      discriminate.
  - apply String.eqb_eq in He. rewrite Hk.
    replace (0 + Z.of_nat k + 1 - 1)%Z with (Z.of_nat k) by lia.
    rewrite Nat2Z.id. split.
    + intros Hnin. exfalso. apply Hnin.
      apply (sorted_names table yearStr). apply in_map_iff. exists e.
      split; [exact He|]. eapply nth_error_In; exact Hn.
    + intros _. split.
      * assert (Hlen : (k < List.length (sorted table yearStr))%nat)
          by (apply nth_error_Some; congruence).
        lia.
      * exists e. split; [exact Hn|]. split; [exact He|].
        intros j e' Hj Hn' Heq. apply String.eqb_eq in Heq.
        specialize (Hlt j e' Hj Hn'). cbn in Hlt. congruence.
Qed.

End RankingFacts.

(** C4, as stated, fails on the total: in the sample table Mexico has no
    data for 2023, so two entities have data for that year, while the
    total reported is 3, and Mexico, without a value, is ranked third. *)
Lemma allRanked_total_counterexample :
  countWithData sampleConsumers "2023" = 2%Z
  /\ total (allRanked (Some sampleConsumers) "MEX" "2023") = 3%Z
  /\ rank (allRanked (Some sampleConsumers) "MEX" "2023") = 3%Z
  /\ total (allRanked (Some sampleConsumers) "MEX" "2023")
     <> countWithData sampleConsumers "2023".
Proof.
  repeat split; discriminate.
Qed.

Lemma allRanked_position_and_total_witness :
  total (allRanked (Some sampleConsumers) "FRA" "2023") = 3%Z
  /\ rank (allRanked (Some sampleConsumers) "FRA" "2023") = 0%Z
  /\ (1 <= rank (allRanked (Some sampleConsumers) "CAN" "2023") <= 3)%Z.
Proof.
  destruct (allRanked_position_and_total sampleConsumers "FRA"%string "2023"%string)
    as [Ht [Habs _]].
  destruct (allRanked_position_and_total sampleConsumers "CAN"%string "2023"%string)
    as [_ [_ Hpres]].
  split; [exact Ht|]. split.
  - apply Habs. cbn. intros [Hk|[Hk|[Hk|[]]]]; discriminate.
  - apply Hpres. cbn. do 2 right. now left.
Defined.

(** The tie of the sample table: the United States and Canada both total
    500000 in 2023 and stay in key order, ahead of Mexico. *)
Lemma sorted_descending_stable_witness :
  map RankEntry.name (sorted sampleConsumers "2023") = ["USA"; "CAN"; "MEX"]%string
  /\ StronglySorted (descBy RankEntry.ttw) (sorted sampleConsumers "2023").
Proof.
  split; [reflexivity|].
  exact (proj1 (sorted_descending_stable sampleConsumers "2023"%string)).
Defined.

(** ** International share *)

Section ShareFacts.
Context {R : Type} `{Route R}.

Lemma sumQ_nonneg (l : list Q) : Forall (fun x => 0 <= x) l -> 0 <= sumQ l.
Proof.
  induction 1 as [|x l Hx _ IH].
  - apply Qle_refl.
  - change (sumQ (x :: l)) with (x + sumQ l). lra.
Qed.

(** One step of the loop adds the resolved terms of its key. *)
Lemma intlShareStep_spec (table : EntityDataset R) (yearStr : string)
    (acc : Q * Q) (iso3 : string) :
  fst (intlShareStep table yearStr acc iso3)
    == fst acc + bilTtw (Some table) iso3 yearStr
  /\ snd (intlShareStep table yearStr acc iso3)
    == snd acc + bilTtw (Some table) iso3 yearStr + domTtw (Some table) iso3 yearStr.
Proof.
  unfold intlShareStep, bilTtw, domTtw, yd, entityData. cbn [Js.oget].
  destruct (Js.oget (Js.get table iso3) yearStr) as [e|]; cbn [Js.ofield].
  - destruct (bilateral e), (domestic e); cbn; split; lra.
  - cbn. split; lra.
Qed.

Lemma intlShareLoop_from (table : EntityDataset R) (yearStr : string)
    (ks : list string) : forall acc,
  fst (fold_left (intlShareStep table yearStr) ks acc)
    == fst acc + sumQ (map (fun e => bilTtw (Some table) e yearStr) ks)
  /\ snd (fold_left (intlShareStep table yearStr) ks acc)
    == snd acc + sumQ (map (fun e => bilTtw (Some table) e yearStr) ks)
       + sumQ (map (fun e => domTtw (Some table) e yearStr) ks).
Proof.
  induction ks as [|k ks IH]; intros acc; cbn [fold_left map].
  - change (sumQ []) with 0. split; lra.
  - destruct (IH (intlShareStep table yearStr acc k)) as [Hb Ht].
    destruct (intlShareStep_spec table yearStr acc k) as [Hb1 Ht1].
    change (sumQ (?x :: ?l)) with (x + sumQ l).
    split; lra.
Qed.

(** The accumulators at the end of the loop. *)
Lemma intlShareLoop_spec (table : EntityDataset R) (yearStr : string) :
  fst (intlShareLoop table yearStr) == bilateralSum table yearStr
  /\ snd (intlShareLoop table yearStr)
     == bilateralSum table yearStr + domesticSum table yearStr.
Proof.
  unfold intlShareLoop, bilateralSum, domesticSum.
  destruct (intlShareLoop_from table yearStr (Js.keys table) (0, 0)) as [Hb Ht].
  cbn [fst snd] in Hb, Ht. split; lra.
Qed.

Lemma bilateralSum_nonneg (table : EntityDataset R) (yearStr : string) :
  nonnegDataset table -> 0 <= bilateralSum table yearStr.
Proof.
  intros Hnn. apply sumQ_nonneg. rewrite Forall_forall. intros x Hx.
  apply in_map_iff in Hx. destruct Hx as [e [<- _]]. now apply bilTtw_nonneg.
Qed.

Lemma domesticSum_nonneg (table : EntityDataset R) (yearStr : string) :
  nonnegDataset table -> 0 <= domesticSum table yearStr.
Proof.
  intros Hnn. apply sumQ_nonneg. rewrite Forall_forall. intros x Hx.
  apply in_map_iff in Hx. destruct Hx as [e [<- _]]. now apply domTtw_nonneg.
Qed.

Lemma sumQ_zero (l : list Q) : Forall (fun x => x = 0) l -> sumQ l == 0.
Proof.
  induction 1 as [|x l Hx _ IH]; [reflexivity|].
  change (sumQ (x :: l)) with (x + sumQ l). subst x. lra.
Qed.

Lemma intlShare_unfold (table : EntityDataset R) (yearStr : string) :
  intlShare (Some table) yearStr
  = if Js.gtb (snd (intlShareLoop table yearStr)) 0
    then (fst (intlShareLoop table yearStr) / snd (intlShareLoop table yearStr)) * 100
    else 0.
Proof.
  unfold intlShare. now destruct (intlShareLoop table yearStr).
Qed.

Lemma gtb_true (x y : Q) : Js.gtb x y = true <-> y < x.
Proof.
  unfold Js.gtb. rewrite negb_true_iff. split.
  - intros Hb. apply Qnot_le_lt. intros Hle.
    apply Qle_bool_iff in Hle. congruence.
  - intros Hlt. destruct (Qle_bool x y) eqn:Hb; [|reflexivity].
    apply Qle_bool_iff in Hb. lra.
Qed.

(** C5. With non-negative [ttw] fields the share lies in [[0, 100]];
    when the sums have a positive denominator it is
    [100 * bilateralSum / (bilateralSum + domesticSum)]; and it is
    exactly [0] when the denominator is [0], in particular when no
    entity has a route for the year. *)
Theorem intlShare_bounds_and_zero (table : EntityDataset R) (yearStr : string) :
  nonnegDataset table ->
  (0 <= intlShare (Some table) yearStr /\ intlShare (Some table) yearStr <= 100)
  /\ (0 < bilateralSum table yearStr + domesticSum table yearStr ->
        intlShare (Some table) yearStr
        == 100 * bilateralSum table yearStr
           / (bilateralSum table yearStr + domesticSum table yearStr))
  /\ (bilateralSum table yearStr + domesticSum table yearStr == 0 ->
        intlShare (Some table) yearStr = 0)
  /\ ((forall e, Js.ofield (yd (Some table) e yearStr) bilateral = None
                 /\ Js.ofield (yd (Some table) e yearStr) domestic = None) ->
        intlShare (Some table) yearStr = 0).
Proof.
  intros Hnn.
  destruct (intlShareLoop_spec table yearStr) as [Hb Ht].
  pose proof (bilateralSum_nonneg table yearStr Hnn) as Hb0.
  pose proof (domesticSum_nonneg table yearStr Hnn) as Hd0.
  assert (Hzero : bilateralSum table yearStr + domesticSum table yearStr == 0 ->
                  intlShare (Some table) yearStr = 0).
  { intros Hz. rewrite intlShare_unfold.
    destruct (Js.gtb (snd (intlShareLoop table yearStr)) 0) eqn:Hg; [|reflexivity].
    apply gtb_true in Hg. lra. }
  split; [|split; [|split; [exact Hzero|]]].
  - rewrite intlShare_unfold.
    destruct (Js.gtb (snd (intlShareLoop table yearStr)) 0) eqn:Hg; [|lra].
    apply gtb_true in Hg.
    set (b := fst (intlShareLoop table yearStr)) in *.
    set (t := snd (intlShareLoop table yearStr)) in *.
    assert (H0 : 0 <= b / t) by (apply Qle_shift_div_l; lra).
    assert (H1 : b / t <= 1) by (apply Qle_shift_div_r; lra).
    split; lra.
  - intros Hpos. rewrite intlShare_unfold.
    destruct (Js.gtb (snd (intlShareLoop table yearStr)) 0) eqn:Hg.
    + rewrite Hb, Ht. field. lra.
    + exfalso. assert (Hn : ~ 0 < snd (intlShareLoop table yearStr)).
      { intros Hlt. apply gtb_true in Hlt. congruence. }
      apply Hn. lra.
  - intros Hnone. apply Hzero.
    assert (Hbz : bilateralSum table yearStr == 0).
    { apply sumQ_zero. rewrite Forall_forall. intros x Hx.
      apply in_map_iff in Hx. destruct Hx as [e [<- _]].
      unfold bilTtw. now rewrite (proj1 (Hnone e)). }
    assert (Hdz : domesticSum table yearStr == 0).
    { apply sumQ_zero. rewrite Forall_forall. intros x Hx.
      apply in_map_iff in Hx. destruct Hx as [e [<- _]].
      unfold domTtw. now rewrite (proj2 (Hnone e)). }
    lra.
Qed.

End ShareFacts.

(** On the sample table the share of 2023 is one half; for 2030, a year
    without data, it is zero. *)
Lemma intlShare_bounds_and_zero_witness :
  (0 <= intlShare (Some sampleConsumers) "2023"
   /\ intlShare (Some sampleConsumers) "2023" <= 100)
  /\ intlShare (Some sampleConsumers) "2023" == 50
  /\ intlShare (Some sampleConsumers) "2030" = 0.
Proof.
  destruct (intlShare_bounds_and_zero sampleConsumers "2023"%string
              sampleConsumers_nonneg) as [Hr _].
  destruct (intlShare_bounds_and_zero sampleConsumers "2030"%string
              sampleConsumers_nonneg) as [_ [_ [Hz _]]].
  split; [exact Hr|]. split; [reflexivity|].
  apply Hz. reflexivity.
Defined.

(** ** Flow filter *)

Lemma truthyStr_true (s : string) : s <> ""%string -> Js.truthyStr s = true.
Proof. destruct s; [contradiction|reflexivity]. Qed.

Section FlowFacts.
Variable bilateral : option BilateralTopFlows.
Variable bilateralByCommodity : option BilateralByCommodity.
Variables selectedCommodity yearStr modeFilter : string.
Variable minEmissions : Q.

Local Abbreviation allFlows :=
  (BilateralFlowMap.allFlows bilateral bilateralByCommodity
     selectedCommodity yearStr modeFilter).
Local Abbreviation filteredFlows :=
  (BilateralFlowMap.filteredFlows bilateral bilateralByCommodity
     selectedCommodity yearStr modeFilter minEmissions).

Lemma filter_filter {A : Type} (p q : A -> bool) (l : list A) :
  filter q (filter p l) = filter (fun x => p x && q x) l.
Proof.
  induction l as [|x l IH]; [reflexivity|].
  cbn [filter]. destruct (p x); cbn [filter andb]; now rewrite IH.
Qed.

(** The survivors, in source order: the flows of the source that pass
    the mode filter (when a commodity is selected) and the threshold. *)
Lemma filteredFlows_survivors :
  filteredFlows
  = firstn 100
      (filter (fun f =>
                 (if Js.truthyStr selectedCommodity
                  then BilateralFlowMap.modeKeeps modeFilter f else true)
                 && Js.geb (BilateralFlow.ttw f) minEmissions)
              allFlows).
Proof.
  unfold BilateralFlowMap.filteredFlows, BilateralFlowMap.modeFiltered, Js.slice0.
  destruct (Js.truthyStr selectedCommodity).
  - now rewrite filter_filter.
  - reflexivity.
Qed.

Lemma filteredFlows_nil_source : allFlows = [] -> filteredFlows = [].
Proof.
  intros Hnil. rewrite filteredFlows_survivors, Hnil. reflexivity.
Qed.

(** C3. The result holds at most 100 flows, each with [ttw] at least the
    threshold; it is the first 100 survivors of the source, in source
    order, the threshold being applied before the cut; and it is empty
    when the year is unknown, when the mode bucket is unknown, and, under
    a selected commodity, when no flow of the source has the requested
    mode. *)
Theorem filteredFlows_capped_thresholded_ordered :
  (List.length filteredFlows <= 100)%nat
  /\ Forall (fun f => minEmissions <= BilateralFlow.ttw f) filteredFlows
  /\ filteredFlows
     = firstn 100
         (filter (fun f =>
                    (if Js.truthyStr selectedCommodity
                     then BilateralFlowMap.modeKeeps modeFilter f else true)
                    && Js.geb (BilateralFlow.ttw f) minEmissions)
                 allFlows)
  /\ (selectedCommodity = ""%string ->
        Js.oget bilateral yearStr = None -> filteredFlows = [])
  /\ (selectedCommodity = ""%string ->
        forall byMode, Js.oget bilateral yearStr = Some byMode ->
        Js.get byMode modeFilter = None -> filteredFlows = [])
  /\ (selectedCommodity <> ""%string ->
        forall byCommodity, bilateralByCommodity = Some byCommodity ->
        Js.oget (Js.get byCommodity selectedCommodity) yearStr = None ->
        filteredFlows = [])
  /\ (selectedCommodity <> ""%string -> modeFilter <> "all"%string ->
        (forall f, In f allFlows -> BilateralFlow.dominant_mode f <> modeFilter) ->
        filteredFlows = []).
Proof.
  split; [|split; [|split; [exact filteredFlows_survivors|]]].
  - unfold BilateralFlowMap.filteredFlows, Js.slice0. apply firstn_le_length.
  - rewrite Forall_forall. intros f Hf.
    unfold BilateralFlowMap.filteredFlows, Js.slice0 in Hf.
    apply In_firstn in Hf.
    apply filter_In in Hf. destruct Hf as [_ Hge].
    now apply Qle_bool_iff in Hge.
  - split; [|split; [|split]].
    + intros Hsel Hy. apply filteredFlows_nil_source.
      unfold BilateralFlowMap.allFlows. rewrite Hsel, Hy. reflexivity.
    + intros Hsel byMode Hy Hm. apply filteredFlows_nil_source.
      unfold BilateralFlowMap.allFlows. rewrite Hsel, Hy, Hm. reflexivity.
    + intros Hsel byCommodity Hby Hy. apply filteredFlows_nil_source.
      unfold BilateralFlowMap.allFlows.
      rewrite (truthyStr_true _ Hsel), Hby, Hy. reflexivity.
    + intros Hsel Hmode Hnone. rewrite filteredFlows_survivors.
      rewrite (truthyStr_true _ Hsel).
      assert (Hf : forall l, (forall f, In f l -> BilateralFlow.dominant_mode f <> modeFilter) ->
                filter (fun f => BilateralFlowMap.modeKeeps modeFilter f
                                 && Js.geb (BilateralFlow.ttw f) minEmissions) l = []).
      { induction l as [|f l IH]; intros Hl; [reflexivity|].
        cbn [filter]. unfold BilateralFlowMap.modeKeeps at 1.
        apply String.eqb_neq in Hmode. rewrite Hmode.
        assert (Hd : String.eqb (BilateralFlow.dominant_mode f) modeFilter = false).
        { apply String.eqb_neq. apply Hl. now left. }
        rewrite Hd. cbn. apply IH. intros g Hg. apply Hl. now right. }
      rewrite Hf; [reflexivity|]. exact Hnone.
Qed.

End FlowFacts.

(** The scenario of the filter: an air bucket of five flows with [ttw]
    50000, 150000, 200000, 90000, 300000 and the threshold 100000 gives
    the three flows at or above it, in source order; an unknown mode
    gives nothing. *)
Lemma filteredFlows_capped_thresholded_ordered_witness :
  map BilateralFlow.ttw
      (BilateralFlowMap.filteredFlows (Some sampleFlows) None "" "2023" "air" 100000)
    = [150000; 200000; 300000]
  /\ (List.length
        (BilateralFlowMap.filteredFlows (Some sampleFlows) None "" "2023" "air" 100000)
      <= 100)%nat
  /\ BilateralFlowMap.filteredFlows (Some sampleFlows) None "" "2023" "rail" 100000 = [].
Proof.
  destruct (filteredFlows_capped_thresholded_ordered
              (Some sampleFlows) None ""%string "2023"%string "air"%string 100000)
    as [Hlen _].
  destruct (filteredFlows_capped_thresholded_ordered
              (Some sampleFlows) None ""%string "2023"%string "rail"%string 100000)
    as [_ [_ [_ [_ [Hmode _]]]]].
  split; [reflexivity|]. split; [exact Hlen|].
  apply (Hmode eq_refl _ eq_refl). reflexivity.
Defined.

(** ** Choropleth colours *)

Lemma index_in_palette (i : Z) :
  (0 <= i <= 7)%Z ->
  exists c, Js.index Colors.SEQUENTIAL_BLUE i = Some c /\ In c Colors.SEQUENTIAL_BLUE.
Proof.
  intros Hi. unfold Js.index.
  destruct (i <? 0)%Z eqn:Hneg; [apply Z.ltb_lt in Hneg; lia|].
  destruct (nth_error Colors.SEQUENTIAL_BLUE (Z.to_nat i)) as [c|] eqn:Hn.
  - exists c. split; [reflexivity|]. eapply nth_error_In; exact Hn.
  - apply nth_error_None in Hn. cbn in Hn. lia.
Qed.

Lemma sequentialIndex_bounds (value min max : Q) :
  (0 <= Colors.sequentialIndex value min max <= 7)%Z.
Proof.
  unfold Colors.sequentialIndex, Js.Math_floor, Js.Math_min, Js.Math_max.
  set (x := (value - min) / (max - min)).
  assert (H0 : 0 <= Qmin 1 (Qmax 0 x)).
  { apply Q.min_glb; [lra|apply Q.le_max_l]. }
  assert (H1 : Qmin 1 (Qmax 0 x) <= 1) by apply Q.le_min_l.
  change (inject_Z (Z.of_nat (List.length Colors.SEQUENTIAL_BLUE) - 1)) with (inject_Z 7).
  split.
  - change 0%Z with (Qfloor (inject_Z 0)) at 1. apply Qfloor_resp_le.
    change (inject_Z 0) with 0. change (inject_Z 7) with 7. nra.
  - rewrite <- (Qfloor_Z 7) at 2. apply Qfloor_resp_le.
    change (inject_Z 7) with 7. nra.
Qed.

(** C6. For all numbers the colour returned is an entry of the palette:
    off the degenerate case the index
    [floor(clamp((v - min) / (max - min), 0, 1) * 7)] lies within the
    eight entries and the divisor is not zero; when [min] equals [max]
    the result is the fixed entry at index 4, whatever the value. *)
Theorem getSequentialColor_palette_member (value min max : Q) :
  (exists c, Colors.getSequentialColor value min max = Some c
             /\ In c Colors.SEQUENTIAL_BLUE)
  /\ (0 <= Colors.sequentialIndex value min max
      < Z.of_nat (List.length Colors.SEQUENTIAL_BLUE))%Z
  /\ (~ max == min ->
        ~ max - min == 0
        /\ Colors.getSequentialColor value min max
           = Js.index Colors.SEQUENTIAL_BLUE (Colors.sequentialIndex value min max))
  /\ (max == min ->
        Colors.getSequentialColor value min max = Some "#2060a5"%string
        /\ forall value', Colors.getSequentialColor value' min max
                          = Colors.getSequentialColor value min max).
Proof.
  pose proof (sequentialIndex_bounds value min max) as Hb.
  unfold Colors.getSequentialColor.
  split; [|split; [|split]].
  - destruct (Qeq_bool max min).
    + apply index_in_palette. lia.
    + apply index_in_palette. exact Hb.
  - cbn [List.length Colors.SEQUENTIAL_BLUE]. lia.
  - intros Hne. split; [intros Hz; apply Hne; lra|].
    destruct (Qeq_bool max min) eqn:He; [|reflexivity].
    apply Qeq_bool_eq in He. contradiction.
  - intros Heq. apply Qeq_bool_iff in Heq.
    unfold Colors.getSequentialColor. rewrite Heq.
    split; [reflexivity|]. intros value'. reflexivity.
Qed.

Lemma getSequentialColor_palette_member_witness :
  Colors.getSequentialColor 5 0 10 = Some "#1a4d85"%string
  /\ Colors.getSequentialColor 50 3 3 = Some "#2060a5"%string
  /\ Colors.getSequentialColor (-2) 3 3 = Colors.getSequentialColor 50 3 3.
Proof.
  destruct (getSequentialColor_palette_member 50 3 3) as [_ [_ [_ Hdeg]]].
  destruct (Hdeg (Qeq_refl 3)) as [Hmid Hsame].
  split; [reflexivity|]. split; [exact Hmid|apply Hsame].
Defined.

(** ** Commodity-to-factor lookup *)

(** C9. When the commodity is itself a key of the table, its own entry
    is the one used, whatever the partial match would select; the
    partial match decides only when the exact lookup finds nothing. *)
Theorem factors_exact_match_first (table : TransportFactors) (commodity : string) :
  (forall tf, Js.get table commodity = Some tf ->
     CommodityExplorer.factorsTf table commodity = Some tf
     /\ CommodityExplorer.factors (Some table) commodity
        = CommodityExplorer.factorRows tf)
  /\ (In commodity (Js.keys table) ->
        CommodityExplorer.factorsTf table commodity = Js.get table commodity)
  /\ (Js.get table commodity = None ->
        CommodityExplorer.factorsTf table commodity
        = Js.ofield (CommodityExplorer.partialKey table commodity)
            (fun key => if Js.truthyStr key then Js.get table key else None)).
Proof.
  unfold CommodityExplorer.factors, CommodityExplorer.factorsTf.
  split; [|split].
  - intros tf ->. now split.
  - intros Hin. destruct (get_Some_keys _ _ Hin) as [tf ->]. reflexivity.
  - intros ->. reflexivity.
Qed.

(** In the sample table "Wheat flour" comes first and matches the word
    "wheat", yet the query "Wheat" gets the entry of its own key. *)
Lemma factors_exact_match_first_witness :
  CommodityExplorer.partialKey sampleFactors "Wheat" = Some "Wheat flour"%string
  /\ CommodityExplorer.factorsTf sampleFactors "Wheat" = Js.get sampleFactors "Wheat"
  /\ map CommodityExplorer.modeKey (CommodityExplorer.factors (Some sampleFactors) "Wheat")
     = ["maritime"; "land"]%string.
Proof.
  destruct (factors_exact_match_first sampleFactors "Wheat"%string) as [_ [Hkey _]].
  split; [reflexivity|]. split; [|reflexivity].
  apply Hkey. cbn. right. now left.
Defined.

(** ** Trade partners *)

Section PartnerFacts.
Variable bilateral : option BilateralTopFlows.
Variable countryMeta : option CountryMetadata.
Variables yearStr iso3 : string.

Local Abbreviation topSources :=
  (CountryExplorer.topSources bilateral countryMeta yearStr iso3).
Local Abbreviation topDest :=
  (CountryExplorer.topDest bilateral countryMeta yearStr iso3).

Lemma top10_sorted (p : BilateralFlow.t -> bool) (l : list BilateralFlow.t)
    (h : BilateralFlow.t -> CountryExplorer.Partner.t) :
  (forall f, CountryExplorer.Partner.ttw (h f) = BilateralFlow.ttw f) ->
  StronglySorted (descBy CountryExplorer.Partner.ttw)
    (map h (Js.slice0 10 (Js.sort (byTtwDesc BilateralFlow.ttw) (filter p l)))).
Proof.
  intros Hh. apply (sorted_map BilateralFlow.ttw); [exact Hh|].
  apply sorted_firstn, sort_sorted.
Qed.

Lemma top10_from (p : BilateralFlow.t -> bool) (l : list BilateralFlow.t)
    (f : BilateralFlow.t) :
  In f (Js.slice0 10 (Js.sort (byTtwDesc BilateralFlow.ttw) (filter p l))) ->
  In f l /\ p f = true.
Proof.
  intros Hf. apply In_firstn, sort_In in Hf. now apply filter_In in Hf.
Qed.

(** C10. Each of the two partner lists has at most 10 entries and is
    descending in [ttw]; every import source comes from a flow of the
    year's "all" bucket whose [to] is the selected country, and every
    export destination from one whose [from] is. *)
Theorem top_partners_bounded_derived_sorted :
  ((List.length topSources <= 10)%nat /\ (List.length topDest <= 10)%nat)
  /\ (forall p, In p topSources ->
        exists b f, bilateral = Some b
          /\ In f (CountryExplorer.flowsAll b yearStr)
          /\ BilateralFlow.to f = iso3
          /\ CountryExplorer.Partner.iso3 p = BilateralFlow.from f
          /\ CountryExplorer.Partner.ttw p = BilateralFlow.ttw f
          /\ CountryExplorer.Partner.name p
             = DataContext.getCountryName countryMeta (BilateralFlow.from f))
  /\ (forall p, In p topDest ->
        exists b f, bilateral = Some b
          /\ In f (CountryExplorer.flowsAll b yearStr)
          /\ BilateralFlow.from f = iso3
          /\ CountryExplorer.Partner.iso3 p = BilateralFlow.to f
          /\ CountryExplorer.Partner.ttw p = BilateralFlow.ttw f
          /\ CountryExplorer.Partner.name p
             = DataContext.getCountryName countryMeta (BilateralFlow.to f))
  /\ StronglySorted (descBy CountryExplorer.Partner.ttw) topSources
  /\ StronglySorted (descBy CountryExplorer.Partner.ttw) topDest.
Proof.
  unfold CountryExplorer.topSources, CountryExplorer.topDest.
  destruct bilateral as [b|].
  - split; [|split; [|split; [|split]]].
    + rewrite !length_map. unfold Js.slice0. split; apply firstn_le_length.
    + intros p Hp. apply in_map_iff in Hp. destruct Hp as [f [<- Hf]].
      apply top10_from in Hf. destruct Hf as [Hin Hto].
      apply String.eqb_eq in Hto. exists b, f. now repeat split.
    + intros p Hp. apply in_map_iff in Hp. destruct Hp as [f [<- Hf]].
      apply top10_from in Hf. destruct Hf as [Hin Hfrom].
      apply String.eqb_eq in Hfrom. exists b, f. now repeat split.
    + now apply top10_sorted.
    + now apply top10_sorted.
  - cbn. repeat split; try lia; try constructor; intros p [].
Qed.

End PartnerFacts.

(** The partners of the United States in the sample flows of 2023:
    imports from China, Canada and Mexico, in that order. *)
Lemma top_partners_bounded_derived_sorted_witness :
  map CountryExplorer.Partner.iso3
      (CountryExplorer.topSources (Some sampleFlows) None "2023" "USA")
    = ["CHN"; "CAN"; "MEX"]%string
  /\ map CountryExplorer.Partner.iso3
         (CountryExplorer.topDest (Some sampleFlows) None "2023" "USA")
     = ["CAN"; "MEX"]%string
  /\ StronglySorted (descBy CountryExplorer.Partner.ttw)
       (CountryExplorer.topSources (Some sampleFlows) None "2023" "USA").
Proof.
  destruct (top_partners_bounded_derived_sorted
              (Some sampleFlows) None "2023"%string "USA"%string)
    as [_ [_ [_ [Hs _]]]].
  split; [reflexivity|]. split; [reflexivity|exact Hs].
Defined.

(** * Further properties of the views *)

(** ** Domestic against international (GlobalOverview) *)

Lemma splitStep_spec (table : ConsumerCountries) (yearStr : string)
    (acc : Q * Q) (iso3 : string) :
  fst (GlobalOverview.splitStep table yearStr acc iso3)
    == fst acc + domTtw (Some table) iso3 yearStr
  /\ snd (GlobalOverview.splitStep table yearStr acc iso3)
    == snd acc + bilTtw (Some table) iso3 yearStr.
Proof.
  unfold GlobalOverview.splitStep, bilTtw, domTtw, yd, entityData. cbn [Js.oget].
  destruct (Js.oget (Js.get table iso3) yearStr) as [e|]; cbn [Js.ofield].
  - destruct (bilateral e), (domestic e); cbn; split; lra.
  - cbn. split; lra.
Qed.

Lemma splitLoop_from (table : ConsumerCountries) (yearStr : string)
    (ks : list string) : forall acc,
  fst (fold_left (GlobalOverview.splitStep table yearStr) ks acc)
    == fst acc + sumQ (map (fun e => domTtw (Some table) e yearStr) ks)
  /\ snd (fold_left (GlobalOverview.splitStep table yearStr) ks acc)
    == snd acc + sumQ (map (fun e => bilTtw (Some table) e yearStr) ks).
Proof.
  induction ks as [|k ks IH]; intros acc; cbn [fold_left map].
  - change (sumQ []) with 0. split; lra.
  - destruct (IH (GlobalOverview.splitStep table yearStr acc k)) as [Hd Hb].
    destruct (splitStep_spec table yearStr acc k) as [Hd1 Hb1].
    change (sumQ (?x :: ?l)) with (x + sumQ l).
    split; lra.
Qed.

Lemma splitLoop_spec (table : ConsumerCountries) (yearStr : string) :
  fst (GlobalOverview.splitLoop table yearStr) == domesticSum table yearStr
  /\ snd (GlobalOverview.splitLoop table yearStr) == bilateralSum table yearStr.
Proof.
  unfold GlobalOverview.splitLoop, bilateralSum, domesticSum.
  destruct (splitLoop_from table yearStr (Js.keys table) (0, 0)) as [Hd Hb].
  cbn [fst snd] in Hd, Hb.
  split; (etransitivity; [eassumption|apply Qplus_0_l]).
Qed.

Lemma oneDecimalMt_comp (x y : Q) :
  x == y -> GlobalOverview.oneDecimalMt x = GlobalOverview.oneDecimalMt y.
Proof.
  intros Hxy. unfold GlobalOverview.oneDecimalMt, Js.Math_round.
  assert (Hh : x / 1000000 * 10 + (1 # 2) == y / 1000000 * 10 + (1 # 2))
    by (rewrite Hxy; reflexivity).
  now rewrite Hh.
Qed.

Lemma domesticVsIntl_point (table : ConsumerCountries) (p : GlobalOverview.YearSplit.t) :
  In p (GlobalOverview.domesticVsIntl (Some table)) ->
  GlobalOverview.YearSplit.Domestic p
    = GlobalOverview.oneDecimalMt
        (domesticSum table (Js.String_ (GlobalOverview.YearSplit.year p)))
  /\ GlobalOverview.YearSplit.International p
    = GlobalOverview.oneDecimalMt
        (bilateralSum table (Js.String_ (GlobalOverview.YearSplit.year p))).
Proof.
  unfold GlobalOverview.domesticVsIntl. intros Hp.
  apply in_map_iff in Hp. destruct Hp as [y [<- _]].
  destruct (splitLoop_spec table (Js.String_ y)) as [Hd Hb].
  destruct (GlobalOverview.splitLoop table (Js.String_ y)) as [dom bil].
  cbn [fst snd] in Hd, Hb. cbn.
  split; now apply oneDecimalMt_comp.
Qed.

(** X1. Once the consumer table is loaded, the split chart has one bar
    pair for each of the years 2010 to 2023, in order, whatever the table
    holds (also when it is empty); each bar is the one-decimal rounding
    of the year's domestic, respectively bilateral, [ttw] summed over
    every country through the metric resolution. *)
Theorem domesticVsIntl_years_and_sums (table : ConsumerCountries) :
  map GlobalOverview.YearSplit.year (GlobalOverview.domesticVsIntl (Some table))
    = [2010; 2011; 2012; 2013; 2014; 2015; 2016;
       2017; 2018; 2019; 2020; 2021; 2022; 2023]%Z
  /\ forall p, In p (GlobalOverview.domesticVsIntl (Some table)) ->
       GlobalOverview.YearSplit.Domestic p
         = GlobalOverview.oneDecimalMt
             (domesticSum table (Js.String_ (GlobalOverview.YearSplit.year p)))
       /\ GlobalOverview.YearSplit.International p
         = GlobalOverview.oneDecimalMt
             (bilateralSum table (Js.String_ (GlobalOverview.YearSplit.year p))).
Proof.
  split.
  - unfold GlobalOverview.domesticVsIntl. rewrite map_map.
    rewrite (map_ext _ (fun y => y)); [now rewrite map_id|].
    intros y. now destruct (GlobalOverview.splitLoop table (Js.String_ y)).
  - apply domesticVsIntl_point.
Qed.

Lemma oneDecimalMt_near (x : Q) :
  x / 1000000 - (1 # 20) < GlobalOverview.oneDecimalMt x
  /\ GlobalOverview.oneDecimalMt x <= x / 1000000 + (1 # 20).
Proof.
  unfold GlobalOverview.oneDecimalMt.
  destruct (Math_round_nearest (x / 1000000 * 10)) as [Hlo Hhi].
  set (r := inject_Z (Js.Math_round (x / 1000000 * 10))) in *.
  set (z := x / 1000000) in *. clearbody r z.
  split.
  - apply Qlt_shift_div_l; lra.
  - apply Qle_shift_div_r; lra.
Qed.

Lemma oneDecimalMt_nonneg (x : Q) : 0 <= x -> 0 <= GlobalOverview.oneDecimalMt x.
Proof.
  intros Hx. unfold GlobalOverview.oneDecimalMt.
  apply Qle_shift_div_l; [lra|].
  assert (Hz : (0 <= Js.Math_round (x / 1000000 * 10))%Z).
  { unfold Js.Math_round. change 0%Z with (Qfloor 0).
    apply Qfloor_resp_le.
    assert (Hz : 0 <= x / 1000000) by (apply Qle_shift_div_l; lra).
    set (z := x / 1000000) in *. clearbody z. lra. }
  rewrite Zle_Qle in Hz. change (inject_Z 0) with 0 in Hz.
  set (r := inject_Z (Js.Math_round (x / 1000000 * 10))) in *. clearbody r. lra.
Qed.

(** X2. With non-negative [ttw] fields, every bar of the split chart is
    non-negative and within 0.05 of the year's sum expressed in millions
    of tonnes. *)
Theorem domesticVsIntl_rounding (table : ConsumerCountries)
    (p : GlobalOverview.YearSplit.t) :
  nonnegDataset table ->
  In p (GlobalOverview.domesticVsIntl (Some table)) ->
  let dom := domesticSum table (Js.String_ (GlobalOverview.YearSplit.year p)) in
  let bil := bilateralSum table (Js.String_ (GlobalOverview.YearSplit.year p)) in
  (0 <= GlobalOverview.YearSplit.Domestic p
   /\ dom / 1000000 - (1 # 20) < GlobalOverview.YearSplit.Domestic p
   /\ GlobalOverview.YearSplit.Domestic p <= dom / 1000000 + (1 # 20))
  /\ (0 <= GlobalOverview.YearSplit.International p
      /\ bil / 1000000 - (1 # 20) < GlobalOverview.YearSplit.International p
      /\ GlobalOverview.YearSplit.International p <= bil / 1000000 + (1 # 20)).
Proof.
  intros Hnn Hp dom bil.
  destruct (domesticVsIntl_point table p Hp) as [-> ->].
  fold dom bil.
  pose proof (domesticSum_nonneg table
                (Js.String_ (GlobalOverview.YearSplit.year p)) Hnn) as Hd.
  pose proof (bilateralSum_nonneg table
                (Js.String_ (GlobalOverview.YearSplit.year p)) Hnn) as Hb.
  fold dom in Hd. fold bil in Hb.
  destruct (oneDecimalMt_near dom) as [Hd1 Hd2].
  destruct (oneDecimalMt_near bil) as [Hb1 Hb2].
  repeat split; try assumption; now apply oneDecimalMt_nonneg.
Qed.

Lemma domesticVsIntl_rounding_witness :
  0 <= GlobalOverview.YearSplit.Domestic (GlobalOverview.YearSplit.mk 2023 (5 # 10) (5 # 10))
  /\ GlobalOverview.YearSplit.Domestic (GlobalOverview.YearSplit.mk 2023 (5 # 10) (5 # 10))
     <= domesticSum sampleConsumers "2023" / 1000000 + (1 # 20).
Proof.
  destruct (domesticVsIntl_rounding sampleConsumers
              (GlobalOverview.YearSplit.mk 2023 (5 # 10) (5 # 10))
              sampleConsumers_nonneg) as [[H0 [_ H1]] _].
  - unfold GlobalOverview.domesticVsIntl. cbn. do 13 right. now left.
  - split; [exact H0|exact H1].
Defined.

(** ** Stat cards and the global series (GlobalOverview) *)

Lemma mapiFrom_nth {A B : Type} (f : A -> Z -> B) (l : list A) : forall i k,
  nth_error (Js.mapiFrom f l i) k
  = match nth_error l k with
    | Some x => Some (f x (i + Z.of_nat k)%Z)
    | None => None
    end.
Proof.
  induction l as [|x l IH]; intros i k; destruct k as [|k]; cbn [Js.mapiFrom nth_error].
  - reflexivity.
  - reflexivity.
  - now rewrite Z.add_0_r.
  - rewrite IH. destruct (nth_error l k); [|reflexivity].
    do 2 f_equal. lia.
Qed.

Lemma mapiFrom_length {A B : Type} (f : A -> Z -> B) (l : list A) : forall i,
  List.length (Js.mapiFrom f l i) = List.length l.
Proof.
  induction l as [|x l IH]; intros i; cbn; [reflexivity|]. now rewrite IH.
Qed.

Lemma indexOf_spec (a : list Z) (x : Z) :
  (~ In x a /\ Js.indexOf a x = (-1)%Z)
  \/ (In x a /\ exists k,
        Js.indexOf a x = Z.of_nat k /\ nth_error a k = Some x
        /\ forall j, (j < k)%nat -> nth_error a j <> Some x).
Proof.
  unfold Js.indexOf, Js.findIndex.
  destruct (findIndexFrom_spec (Z.eqb x) a 0)
    as [[Hm Hall]|[k [e [Hk [Hn [He Hlt]]]]]].
  - left. split; [|exact Hm]. intros Hin.
    specialize (Hall (Z.le_refl 0)). rewrite Forall_forall in Hall.
    specialize (Hall x Hin). rewrite Z.eqb_refl in Hall. discriminate.
  - apply Z.eqb_eq in He. subst e. right. split.
    + eapply nth_error_In; exact Hn.
    + exists k. split; [rewrite Hk; lia|]. split; [exact Hn|].
      intros j Hj Hnj. specialize (Hlt j x Hj Hnj).
      rewrite Z.eqb_refl in Hlt. discriminate.
Qed.

(** X3. The cards and the chart agree. When the selected year is absent
    from the global series the three cards show 0; when it is present,
    the point of the chart at the year's first index bears that year and
    the very values the emissions and food-miles cards show. The chart
    has one point per listed year. *)
Theorem statCards_match_series (g : GlobalTimeseries.t) (selectedYear : Z) :
  let i := GlobalOverview.yearIdx (Some g) selectedYear in
  List.length (GlobalOverview.timeSeriesData (Some g))
    = List.length (GlobalTimeseries.years g)
  /\ (~ In selectedYear (GlobalTimeseries.years g) ->
        i = (-1)%Z
        /\ GlobalOverview.ttwMt (Some g) selectedYear = Some 0
        /\ GlobalOverview.foodMilesBt (Some g) selectedYear = Some 0
        /\ GlobalOverview.tradeVol (Some g) selectedYear = Some 0)
  /\ (In selectedYear (GlobalTimeseries.years g) ->
        (0 <= i < Z.of_nat (List.length (GlobalTimeseries.years g)))%Z
        /\ exists p,
             nth_error (GlobalOverview.timeSeriesData (Some g)) (Z.to_nat i) = Some p
             /\ GlobalOverview.GlobalPoint.year p = selectedYear
             /\ GlobalOverview.GlobalPoint.TTW p
                = GlobalOverview.ttwMt (Some g) selectedYear
             /\ GlobalOverview.GlobalPoint.foodMiles p
                = GlobalOverview.foodMilesBt (Some g) selectedYear).
Proof.
  cbn zeta.
  unfold GlobalOverview.ttwMt, GlobalOverview.foodMilesBt, GlobalOverview.tradeVol,
    GlobalOverview.statCard, GlobalOverview.timeSeriesData, Js.mapi.
  cbn [GlobalOverview.yearIdx Js.ofield].
  split; [apply mapiFrom_length|].
  destruct (indexOf_spec (GlobalTimeseries.years g) selectedYear)
    as [[Hnin Hi]|[Hin [k [Hi [Hn Hfirst]]]]].
  - split; [|contradiction]. intros _. rewrite Hi. now cbn.
  - split; [contradiction|]. intros _. rewrite Hi.
    assert (Hk : (k < List.length (GlobalTimeseries.years g))%nat)
      by (apply nth_error_Some; congruence).
    split; [lia|]. rewrite Nat2Z.id, mapiFrom_nth, Hn.
    eexists. split; [reflexivity|]. cbn.
    destruct (0 <=? Z.of_nat k)%Z eqn:Hge; [|apply Z.leb_gt in Hge; lia].
    now repeat split.
Qed.

Lemma statCards_match_series_witness :
  GlobalOverview.ttwMt (Some sampleGlobal) 2022 = Some 55
  /\ GlobalOverview.ttwMt (Some sampleGlobal) 2019 = Some 0
  /\ GlobalOverview.yearIdx (Some sampleGlobal) 2019 = (-1)%Z.
Proof.
  destruct (statCards_match_series sampleGlobal 2019) as [_ [Habs _]].
  destruct Habs as [Hi [Ht _]].
  - cbn. intros [H|[H|[H|[]]]]; discriminate.
  - split; [reflexivity|]. split; [exact Ht|exact Hi].
Defined.

(** ** Top commodities (GlobalOverview) *)

Lemma string_length_append (a b : string) :
  String.length (String.append a b) = (String.length a + String.length b)%nat.
Proof.
  induction a as [|c a IH]; cbn; [reflexivity|]. now rewrite IH.
Qed.

Lemma sliceStr_length (n : nat) : forall s,
  String.length (Js.sliceStr n s) = Nat.min n (String.length s).
Proof.
  unfold Js.sliceStr. induction n as [|n IH]; intros s.
  - now destruct s.
  - destruct s as [|c s]; cbn; [reflexivity|]. now rewrite IH.
Qed.

Lemma shortName_length (s : string) :
  (String.length (GlobalOverview.shortName s) <= 25)%nat
  /\ ((String.length s <= 25)%nat -> GlobalOverview.shortName s = s)
  /\ ((25 < String.length s)%nat ->
        String.length (GlobalOverview.shortName s) = 25%nat
        /\ GlobalOverview.shortName s
           = String.append (String.substring 0 22 s) "...").
Proof.
  unfold GlobalOverview.shortName.
  destruct (25 <? String.length s)%nat eqn:Hlt.
  - apply Nat.ltb_lt in Hlt.
    assert (Hlen : String.length (String.append (Js.sliceStr 22 s) "...") = 25%nat).
    { rewrite string_length_append, sliceStr_length. cbn [String.length]. lia. }
    split; [lia|]. split; [lia|]. intros _. split; [exact Hlen|reflexivity].
  - apply Nat.ltb_ge in Hlt. split; [exact Hlt|]. split; [reflexivity|lia].
Qed.

(** The head of a descending list dominates its tail. *)
Lemma sorted_firstn_skipn {A : Type} (f : A -> Q) (n : nat) : forall l a b,
  StronglySorted (descBy f) l ->
  In a (firstn n l) -> In b (skipn n l) -> f b <= f a.
Proof.
  induction n as [|n IH]; intros l a b Hs Ha Hb; [contradiction|].
  destruct l as [|x l]; [contradiction|].
  inversion Hs as [|? ? Hs' Hall]; subst. cbn in Ha, Hb.
  destruct Ha as [<-|Ha].
  - rewrite Forall_forall in Hall. apply Hall.
    rewrite <- (firstn_skipn n l). apply in_or_app. now right.
  - now apply (IH l).
Qed.

(** X4. The top-commodities chart has at most 10 rows, descending in
    [ttw], and no commodity left out has more than a row shown. Each
    row carries the total of a commodity of the table under [fullName],
    and a label of at most 25 characters: the name itself when it fits,
    otherwise its first 22 characters followed by three dots. *)
Theorem topCommodities_rows (table : Commodities) (yearStr : string) :
  let top := GlobalOverview.topCommodities (Some table) yearStr in
  (List.length top <= 10)%nat
  /\ StronglySorted (descBy GlobalOverview.CommodityRow.ttw) top
  /\ (exists rest,
        Permutation (top ++ rest) (GlobalOverview.commodityRows table yearStr)
        /\ forall r r', In r top -> In r' rest ->
             GlobalOverview.CommodityRow.ttw r' <= GlobalOverview.CommodityRow.ttw r)
  /\ (forall r, In r top ->
        (exists data, In (GlobalOverview.CommodityRow.fullName r, data) table
                      /\ GlobalOverview.CommodityRow.ttw r = yearTotal data yearStr)
        /\ (String.length (GlobalOverview.CommodityRow.name r) <= 25)%nat
        /\ ((String.length (GlobalOverview.CommodityRow.fullName r) <= 25)%nat ->
              GlobalOverview.CommodityRow.name r = GlobalOverview.CommodityRow.fullName r)
        /\ ((25 < String.length (GlobalOverview.CommodityRow.fullName r))%nat ->
              GlobalOverview.CommodityRow.name r
              = String.append
                  (String.substring 0 22 (GlobalOverview.CommodityRow.fullName r))
                  "...")).
Proof.
  cbn zeta. unfold GlobalOverview.topCommodities, Js.slice0.
  set (rows := GlobalOverview.commodityRows table yearStr).
  set (ranking := Js.sort (byTtwDesc GlobalOverview.CommodityRow.ttw) rows).
  assert (Hs : StronglySorted (descBy GlobalOverview.CommodityRow.ttw) ranking)
    by apply sort_sorted.
  split; [apply firstn_le_length|]. split; [now apply sorted_firstn|]. split.
  - exists (skipn 10 ranking). split.
    + rewrite firstn_skipn. apply sort_perm.
    + intros r r' Hr Hr'.
      now apply (sorted_firstn_skipn GlobalOverview.CommodityRow.ttw 10 ranking).
  - intros r Hr. apply In_firstn, sort_In in Hr.
    unfold rows, GlobalOverview.commodityRows, Js.entries in Hr.
    apply in_map_iff in Hr. destruct Hr as [[k data] [<- Hin]].
    cbn [GlobalOverview.CommodityRow.name GlobalOverview.CommodityRow.ttw
         GlobalOverview.CommodityRow.fullName fst snd].
    destruct (shortName_length k) as [Hle [Hfit Hcut]].
    split; [now exists data|]. split; [exact Hle|]. split; [exact Hfit|].
    intros Hlong. now apply Hcut.
Qed.

Lemma topCommodities_rows_witness :
  map GlobalOverview.CommodityRow.name
      (GlobalOverview.topCommodities (Some sampleCommodities) "2023")
    = ["Food preparations not ..."; "Wheat"; "Rice"]%string
  /\ StronglySorted (descBy GlobalOverview.CommodityRow.ttw)
       (GlobalOverview.topCommodities (Some sampleCommodities) "2023").
Proof.
  split; [reflexivity|].
  exact (proj1 (proj2 (topCommodities_rows sampleCommodities "2023"%string))).
Defined.

(** ** Choropleth data (GlobalOverview) *)

Lemma mapSet_get {V : Type} (m : Js.Map V) (k k' : string) (v : V) :
  Js.get (Js.mapSet m k v) k' = if String.eqb k' k then Some v else Js.get m k'.
Proof.
  induction m as [|[k0 v0] m IH]; cbn [Js.mapSet Js.get].
  - reflexivity.
  - destruct (String.eqb_spec k k0) as [->|Hne]; cbn [Js.get].
    + now destruct (String.eqb k' k0).
    + rewrite IH. destruct (String.eqb_spec k' k0) as [->|Hne'].
      * destruct (String.eqb_spec k0 k) as [Heq|_]; [congruence|reflexivity].
      * reflexivity.
Qed.

Lemma mapSet_values {V : Type} (P : V -> Prop) (m : Js.Map V) (k : string) (v : V) :
  P v -> Forall P (Js.mapValues m) -> Forall P (Js.mapValues (Js.mapSet m k v)).
Proof.
  intros Hv. unfold Js.mapValues.
  induction m as [|[k0 v0] m IH]; cbn [Js.mapSet map]; intros Hall.
  - constructor; [exact Hv|constructor].
  - inversion Hall as [|? ? H0 Hrest]; subst.
    destruct (String.eqb k k0); cbn [map]; constructor; auto.
Qed.

(** The loop of [countryEmissions], started from any map. *)
Lemma countryEmissions_from (yearStr : string)
    (es : list (string * YearData RouteEmissions.t)) : forall (m : Js.Map Q) iso3,
  NoDup (Js.keys es) ->
  Js.get
    (fold_left (fun (map : Js.Map Q) (e : string * YearData RouteEmissions.t) =>
                  if Js.gtb (yearTotal (snd e) yearStr) 0
                  then Js.mapSet map (fst e) (yearTotal (snd e) yearStr) else map)
               es m) iso3
  = match Js.get es iso3 with
    | Some data =>
        if Js.gtb (yearTotal data yearStr) 0
        then Some (yearTotal data yearStr) else Js.get m iso3
    | None => Js.get m iso3
    end.
Proof.
  induction es as [|[k data] es IH]; intros m iso3 Hnd; [reflexivity|].
  cbn [Js.keys map fst] in Hnd. inversion Hnd as [|? ? Hk Hnd']; subst.
  cbn [fold_left Js.get fst snd]. rewrite (IH _ _ Hnd').
  destruct (String.eqb_spec iso3 k) as [->|Hne].
  - assert (Hnone : Js.get es k = None) by (apply get_None_keys; exact Hk).
    rewrite Hnone.
    destruct (Js.gtb (yearTotal data yearStr) 0); [|reflexivity].
    now rewrite mapSet_get, String.eqb_refl.
  - destruct (Js.gtb (yearTotal data yearStr) 0); [|reflexivity].
    rewrite mapSet_get.
    destruct (String.eqb_spec iso3 k) as [Heq|_]; [contradiction|reflexivity].
Qed.

Lemma countryEmissions_positive (yearStr : string)
    (es : list (string * YearData RouteEmissions.t)) : forall (m : Js.Map Q),
  Forall (fun v => 0 < v) (Js.mapValues m) ->
  Forall (fun v => 0 < v)
    (Js.mapValues
       (fold_left (fun (map : Js.Map Q) (e : string * YearData RouteEmissions.t) =>
                     if Js.gtb (yearTotal (snd e) yearStr) 0
                     then Js.mapSet map (fst e) (yearTotal (snd e) yearStr) else map)
                  es m)).
Proof.
  induction es as [|e es IH]; intros m Hm; [exact Hm|].
  cbn [fold_left]. apply IH.
  destruct (Js.gtb (yearTotal (snd e) yearStr) 0) eqn:Hg; [|exact Hm].
  apply mapSet_values; [|exact Hm]. now apply gtb_true.
Qed.

(** X5. For a table whose keys are distinct, the value the map colours a
    country by is the country's resolved total of the year when that
    total is positive, and 0 otherwise (no entry, no data for the year,
    or a total that is not positive). *)
Theorem countryEmissions_val (table : ConsumerCountries) (yearStr iso3 : string) :
  NoDup (Js.keys table) ->
  GlobalOverview.val (Some table) yearStr iso3
  = if Js.gtb (totalTtw (Some table) iso3 yearStr) 0
    then totalTtw (Some table) iso3 yearStr else 0.
Proof.
  intros Hnd.
  unfold GlobalOverview.val, GlobalOverview.countryEmissions, Js.mapGet, Js.entries.
  rewrite (countryEmissions_from yearStr table [] iso3 Hnd).
  unfold totalTtw, bilTtw, domTtw, yd, entityData. cbn [Js.oget Js.get].
  destruct (Js.get table iso3) as [data|]; cbn [Js.oget].
  - unfold yearTotal.
    destruct (Js.gtb _ 0); reflexivity.
  - reflexivity.
Qed.

Lemma sampleConsumers_NoDup : NoDup (Js.keys sampleConsumers).
Proof.
  cbn. repeat constructor; cbn; intros H;
    repeat (destruct H as [H|H]; [discriminate|]); exact H.
Qed.

Lemma countryEmissions_val_witness :
  GlobalOverview.val (Some sampleConsumers) "2023" "USA" = 500000
  /\ GlobalOverview.val (Some sampleConsumers) "2023" "MEX" = 0
  /\ GlobalOverview.val (Some sampleConsumers) "2023" "USA"
     = totalTtw (Some sampleConsumers) "USA" "2023".
Proof.
  split; [reflexivity|]. split; [reflexivity|].
  exact (countryEmissions_val sampleConsumers "2023"%string "USA"%string
           sampleConsumers_NoDup).
Defined.

Lemma min_spread_positive (xs : list Q) :
  Forall (fun v => 0 < v) xs -> Js.Math_min_spread xs 0 == 0.
Proof.
  unfold Js.Math_min_spread, Js.Math_min.
  induction 1 as [|x xs Hx _ IH]; cbn [fold_right]; [reflexivity|].
  rewrite Q.min_r; [exact IH|]. rewrite IH. lra.
Qed.

Lemma max_spread_ge_last (xs : list Q) (x : Q) : x <= Js.Math_max_spread xs x.
Proof.
  unfold Js.Math_max_spread, Js.Math_max.
  induction xs as [|y xs IH]; cbn [fold_right]; [apply Qle_refl|].
  eapply Qle_trans; [exact IH|apply Q.le_max_r].
Qed.

Lemma max_spread_ge_each (xs : list Q) (x v : Q) :
  In v xs -> v <= Js.Math_max_spread xs x.
Proof.
  unfold Js.Math_max_spread, Js.Math_max.
  induction xs as [|y xs IH]; cbn [fold_right]; [contradiction|].
  intros [->|Hin].
  - apply Q.le_max_l.
  - eapply Qle_trans; [now apply IH|apply Q.le_max_r].
Qed.

(** X6. The colour scale handed to the choropleth is never degenerate:
    the lower bound [minE] is 0, the upper bound [maxE] is at least 1 and
    at least every value of the map, every value of the map is positive,
    and so [maxE] differs from [minE]; a country that is coloured has its
    value strictly above [minE] and at most [maxE]. *)
Theorem choropleth_scale_bounds (consumers : option ConsumerCountries)
    (yearStr : string) :
  GlobalOverview.minE consumers yearStr == 0
  /\ 1 <= GlobalOverview.maxE consumers yearStr
  /\ Forall (fun v => 0 < v /\ v <= GlobalOverview.maxE consumers yearStr)
       (GlobalOverview.emissionValues consumers yearStr)
  /\ ~ GlobalOverview.maxE consumers yearStr == GlobalOverview.minE consumers yearStr
  /\ (forall iso3, 0 < GlobalOverview.val consumers yearStr iso3 ->
        GlobalOverview.minE consumers yearStr < GlobalOverview.val consumers yearStr iso3
        /\ GlobalOverview.val consumers yearStr iso3
           <= GlobalOverview.maxE consumers yearStr).
Proof.
  assert (Hpos : Forall (fun v => 0 < v) (GlobalOverview.emissionValues consumers yearStr)).
  { unfold GlobalOverview.emissionValues, GlobalOverview.countryEmissions.
    destruct consumers as [table|]; [|constructor].
    apply countryEmissions_positive. constructor. }
  assert (Hmin : GlobalOverview.minE consumers yearStr == 0)
    by (apply min_spread_positive; exact Hpos).
  assert (Hmax : 1 <= GlobalOverview.maxE consumers yearStr)
    by apply max_spread_ge_last.
  split; [exact Hmin|]. split; [exact Hmax|]. split; [|split].
  - rewrite Forall_forall in *. intros v Hv. split; [now apply Hpos|].
    now apply max_spread_ge_each.
  - rewrite Hmin. intros Heq. rewrite Heq in Hmax. lra.
  - intros iso3 Hval. rewrite Hmin. split; [exact Hval|].
    unfold GlobalOverview.val, Js.mapGet in *.
    destruct (Js.get (GlobalOverview.countryEmissions consumers yearStr) iso3)
      as [v|] eqn:Hg; cbn [Js.nullish] in *.
    + apply max_spread_ge_each. unfold GlobalOverview.emissionValues, Js.mapValues.
      apply get_In in Hg. apply in_map_iff. now exists (iso3, v).
    + lra.
Qed.

Lemma choropleth_scale_bounds_witness :
  GlobalOverview.minE (Some sampleConsumers) "2023" == 0
  /\ GlobalOverview.maxE (Some sampleConsumers) "2023" == 500000
  /\ GlobalOverview.maxE (Some sampleConsumers) "2030" == 1
  /\ GlobalOverview.val (Some sampleConsumers) "2023" "CAN"
     <= GlobalOverview.maxE (Some sampleConsumers) "2023".
Proof.
  destruct (choropleth_scale_bounds (Some sampleConsumers) "2023"%string)
    as [Hmin [_ [_ [_ Hval]]]].
  split; [exact Hmin|]. split; [reflexivity|]. split; [reflexivity|].
  apply (Hval "CAN"%string). reflexivity.
Defined.

(** ** Lines and corridors of the flow map (BilateralFlowMap) *)

(** X7. The largest [ttw] used to scale the lines is at least 1, so the
    division is safe; every drawn flow with a non-negative [ttw] gets a
    line width between 0.5 and 4 and, when it is not hovered, an opacity
    between 0.4 and 0.8; a hovered flow has opacity 1. *)
Theorem stroke_bounds (filteredFlows : list BilateralFlow.t) (flow : BilateralFlow.t) :
  In flow filteredFlows ->
  0 <= BilateralFlow.ttw flow ->
  let m := BilateralFlowMap.maxTtw filteredFlows in
  1 <= m
  /\ ((1 # 2) <= BilateralFlowMap.strokeWidth m flow
      /\ BilateralFlowMap.strokeWidth m flow <= 4)
  /\ ((4 # 10) <= BilateralFlowMap.strokeOpacity false m flow
      /\ BilateralFlowMap.strokeOpacity false m flow <= (8 # 10))
  /\ BilateralFlowMap.strokeOpacity true m flow = 1.
Proof.
  intros Hin Hnn m.
  assert (Hm : 1 <= m) by apply max_spread_ge_last.
  assert (Hle : BilateralFlow.ttw flow <= m).
  { apply max_spread_ge_each. now apply in_map. }
  assert (H0 : 0 <= BilateralFlow.ttw flow / m) by (apply Qle_shift_div_l; lra).
  assert (H1 : BilateralFlow.ttw flow / m <= 1) by (apply Qle_shift_div_r; lra).
  unfold BilateralFlowMap.strokeWidth, BilateralFlowMap.strokeOpacity, Js.Math_max.
  set (t := BilateralFlow.ttw flow / m) in *. clearbody t.
  split; [exact Hm|]. split; [|split; [split; lra|reflexivity]].
  split; [apply Q.le_max_l|]. apply Q.max_lub; lra.
Qed.

Lemma stroke_bounds_witness :
  BilateralFlowMap.maxTtw sampleBucket == 300000
  /\ (1 # 2) <= BilateralFlowMap.strokeWidth (BilateralFlowMap.maxTtw sampleBucket)
                  (flow "MEX" "USA" 50000 "air")
  /\ BilateralFlowMap.strokeWidth (BilateralFlowMap.maxTtw sampleBucket)
       (flow "MEX" "USA" 50000 "air") <= 4.
Proof.
  destruct (stroke_bounds sampleBucket (flow "MEX" "USA" 50000 "air"))
    as [_ [[Hlo Hhi] _]].
  - now left.
  - cbn. unfold Qle. cbn. lia.
  - split; [reflexivity|]. split; [exact Hlo|exact Hhi].
Defined.

Lemma sorted_filter {A : Type} (f : A -> Q) (p : A -> bool) (l : list A) :
  StronglySorted (descBy f) l -> StronglySorted (descBy f) (filter p l).
Proof.
  induction 1 as [|x l Hs IH Hall]; cbn [filter]; [constructor|].
  destruct (p x); [|exact IH]. constructor; [exact IH|].
  rewrite Forall_forall in *. intros y Hy. apply Hall.
  now apply filter_In in Hy.
Qed.

(** X8. The corridor chart lists the first 20 filtered flows, in their
    order, with their [ttw] and mode. When the source the flows are
    filtered from is descending in [ttw], the chart is descending too
    and no filtered flow left out exceeds a corridor shown. *)
Theorem topCorridors_of_source
    (bilateral : option BilateralTopFlows)
    (bilateralByCommodity : option BilateralByCommodity)
    (countryMeta : option CountryMetadata)
    (selectedCommodity yearStr modeFilter : string) (minEmissions : Q) :
  let shown := BilateralFlowMap.filteredFlows bilateral bilateralByCommodity
                 selectedCommodity yearStr modeFilter minEmissions in
  let top := BilateralFlowMap.topCorridors countryMeta shown in
  (List.length top <= 20)%nat
  /\ map BilateralFlowMap.Corridor.ttw top = firstn 20 (map BilateralFlow.ttw shown)
  /\ map BilateralFlowMap.Corridor.mode top
     = firstn 20 (map BilateralFlow.dominant_mode shown)
  /\ (StronglySorted (descBy BilateralFlow.ttw)
        (BilateralFlowMap.allFlows bilateral bilateralByCommodity
           selectedCommodity yearStr modeFilter) ->
      StronglySorted (descBy BilateralFlowMap.Corridor.ttw) top
      /\ forall c f, In c top -> In f (skipn 20 shown) ->
           BilateralFlow.ttw f <= BilateralFlowMap.Corridor.ttw c).
Proof.
  cbn zeta. unfold BilateralFlowMap.topCorridors, Js.slice0.
  split; [rewrite length_map; apply firstn_le_length|].
  split; [rewrite map_map, <- firstn_map; reflexivity|].
  split; [rewrite map_map, <- firstn_map; reflexivity|].
  intros Hsrc.
  assert (Hs : StronglySorted (descBy BilateralFlow.ttw)
                 (BilateralFlowMap.filteredFlows bilateral bilateralByCommodity
                    selectedCommodity yearStr modeFilter minEmissions)).
  { rewrite filteredFlows_survivors. now apply sorted_firstn, sorted_filter. }
  split.
  - apply (sorted_map BilateralFlow.ttw); [reflexivity|]. now apply sorted_firstn.
  - intros c f Hc Hf. apply in_map_iff in Hc. destruct Hc as [g [<- Hg]].
    cbn [BilateralFlowMap.Corridor.ttw].
    exact (sorted_firstn_skipn BilateralFlow.ttw 20 _ g f Hs Hg Hf).
Qed.

Lemma topCorridors_of_source_witness :
  map BilateralFlowMap.Corridor.ttw
      (BilateralFlowMap.topCorridors None
         (BilateralFlowMap.filteredFlows (Some sampleFlows) None "" "2023" "air" 100000))
  = [150000; 200000; 300000].
Proof.
  destruct (topCorridors_of_source (Some sampleFlows) None None
              ""%string "2023"%string "air"%string 100000) as [_ [Ht _]].
  rewrite Ht. reflexivity.
Defined.

Lemma filter_all {A : Type} (p : A -> bool) (l : list A) :
  Forall (fun x => p x = true) l -> filter p l = l.
Proof.
  induction 1 as [|x l Hx _ IH]; cbn [filter]; [reflexivity|].
  now rewrite Hx, IH.
Qed.

Lemma firstn_filter_small {A : Type} (p : A -> bool) (n : nat) (l : list A) (x : A) :
  (List.length (filter p l) <= n)%nat ->
  In x l -> p x = true -> In x (firstn n (filter p l)).
Proof.
  intros Hlen Hin Hp. rewrite firstn_all2; [|exact Hlen].
  apply filter_In. now split.
Qed.

(** X9. The threshold only removes flows. With a threshold of at most 0
    and non-negative [ttw] in the mode-filtered source, the result is
    the first 100 flows of that source; and when the result for a
    threshold was not cut at 100, every flow shown for a higher
    threshold was already shown for it. *)
Theorem filteredFlows_threshold
    (bilateral : option BilateralTopFlows)
    (bilateralByCommodity : option BilateralByCommodity)
    (selectedCommodity yearStr modeFilter : string) (low high : Q) :
  let source := BilateralFlowMap.modeFiltered bilateral bilateralByCommodity
                  selectedCommodity yearStr modeFilter in
  let shown := BilateralFlowMap.filteredFlows bilateral bilateralByCommodity
                 selectedCommodity yearStr modeFilter in
  (low <= 0 -> Forall (fun f => 0 <= BilateralFlow.ttw f) source ->
     shown low = firstn 100 source)
  /\ (low <= high ->
      (List.length
         (filter (fun f => Js.geb (BilateralFlow.ttw f) low) source) <= 100)%nat ->
      forall f, In f (shown high) -> In f (shown low)).
Proof.
  cbn zeta. unfold BilateralFlowMap.filteredFlows, Js.slice0. split.
  - intros Hlow Hnn. rewrite filter_all; [reflexivity|].
    eapply Forall_impl; [|exact Hnn]. intros f Hf. cbn beta in *.
    unfold Js.geb. apply Qle_bool_iff. lra.
  - intros Hle Hlen f Hf. apply In_firstn, filter_In in Hf.
    destruct Hf as [Hin Hge]. apply firstn_filter_small; try assumption.
    cbn beta in *. unfold Js.geb in *.
    apply Qle_bool_iff. apply Qle_bool_iff in Hge. lra.
Qed.

Lemma filteredFlows_threshold_witness :
  BilateralFlowMap.filteredFlows (Some sampleFlows) None "" "2023" "air" 0
  = sampleBucket.
Proof.
  destruct (filteredFlows_threshold (Some sampleFlows) None
              ""%string "2023"%string "air"%string 0 100000) as [Hzero _].
  rewrite Hzero.
  - reflexivity.
  - apply Qle_refl.
  - cbn. repeat constructor; unfold Qle; cbn; lia.
Defined.

(** ** Search boxes and the commodity dropdown *)

Lemma prefix_spec (sub : string) : forall s,
  String.prefix sub s = true <-> exists post, s = String.append sub post.
Proof.
  induction sub as [|a sub IH]; intros s; cbn [String.append].
  - split; [intros _; now exists s|]. intros _. now destruct s.
  - destruct s as [|b s]; cbn [String.prefix].
    + split; [discriminate|]. intros [post Hp]. discriminate.
    + destruct (ascii_dec a b) as [->|Hne].
      * rewrite IH. split; intros [post Hp]; exists post; congruence.
      * split; [discriminate|]. intros [post Hp]. congruence.
Qed.

Lemma includes_spec (s sub : string) : Js.includes s sub = true <-> occursIn sub s.
Proof.
  unfold occursIn. induction s as [|c s IH]; cbn [Js.includes].
  - rewrite orb_false_r, prefix_spec. split.
    + intros [post Hp]. now exists EmptyString, post.
    + intros [pre [post Hp]]. destruct pre; [now exists post|discriminate].
  - rewrite orb_true_iff, prefix_spec, IH. split.
    + intros [[post Hp]|[pre [post Hp]]].
      * now exists EmptyString, post.
      * exists (String c pre), post. cbn. now rewrite Hp.
    + intros [pre [post Hp]]. destruct pre as [|c' pre].
      * left. now exists post.
      * right. exists pre, post. cbn in Hp. congruence.
Qed.

Lemma includes_empty (s : string) : Js.includes s "" = true.
Proof. destruct s; reflexivity. Qed.

Section SearchFacts.
Context {A : Type} (p : A -> bool) (l : list A).

(** What every search box does with its matches: the first 20, in list
    order. *)
Lemma search_results :
  (List.length (Js.slice0 20 (filter p l)) <= 20)%nat
  /\ (forall x, In x (Js.slice0 20 (filter p l)) -> In x l /\ p x = true)
  /\ ((List.length (filter p l) <= 20)%nat ->
        forall x, In x l -> p x = true -> In x (Js.slice0 20 (filter p l)))
  /\ ((forall x, In x l -> p x = true) ->
        Js.slice0 20 (filter p l) = firstn 20 l).
Proof.
  unfold Js.slice0. split; [apply firstn_le_length|]. split; [|split].
  - intros x Hx. apply In_firstn in Hx. now apply filter_In in Hx.
  - intros Hlen x Hx Hp. now apply firstn_filter_small.
  - intros Hall. rewrite filter_all; [reflexivity|]. now apply Forall_forall.
Qed.

End SearchFacts.

(** X10. The country search shows at most 20 countries of the list;
    each one contains the lower-cased query in its lower-cased name or
    ISO3 code; when at most 20 countries match, every matching country
    is shown; and the empty query shows the first 20 countries. *)
Theorem country_search_results (d : DropdownLists.t) (search : string) :
  let shown := CountryExplorer.filtered (Some d) search in
  let matches c :=
    occursIn (Js.toLowerCase search) (Js.toLowerCase (CountryListItem.name c))
    \/ occursIn (Js.toLowerCase search) (Js.toLowerCase (CountryListItem.iso3 c)) in
  (List.length shown <= 20)%nat
  /\ (forall c, In c shown -> In c (DropdownLists.countries d) /\ matches c)
  /\ ((List.length
          (filter (fun c =>
                     Js.includes (Js.toLowerCase (CountryListItem.name c))
                       (Js.toLowerCase search)
                     || Js.includes (Js.toLowerCase (CountryListItem.iso3 c))
                          (Js.toLowerCase search))
                  (DropdownLists.countries d)) <= 20)%nat ->
        forall c, In c (DropdownLists.countries d) -> matches c -> In c shown)
  /\ (search = ""%string -> shown = firstn 20 (DropdownLists.countries d)).
Proof.
  cbn zeta. unfold CountryExplorer.filtered.
  set (p := fun c =>
              Js.includes (Js.toLowerCase (CountryListItem.name c)) (Js.toLowerCase search)
              || Js.includes (Js.toLowerCase (CountryListItem.iso3 c)) (Js.toLowerCase search)).
  assert (Hp : forall c, p c = true <->
             occursIn (Js.toLowerCase search) (Js.toLowerCase (CountryListItem.name c))
             \/ occursIn (Js.toLowerCase search) (Js.toLowerCase (CountryListItem.iso3 c))).
  { intros c. unfold p. now rewrite orb_true_iff, !includes_spec. }
  destruct (search_results p (DropdownLists.countries d)) as [Hlen [Hin [Hall Hempty]]].
  split; [exact Hlen|]. split; [|split].
  - intros c Hc. destruct (Hin c Hc) as [H1 H2]. split; [exact H1|now apply Hp].
  - intros Hsmall c Hc Hm. apply Hall; [exact Hsmall|exact Hc|now apply Hp].
  - intros ->. apply Hempty. intros c _. unfold p. cbn [Js.toLowerCase].
    now rewrite includes_empty.
Qed.

Lemma country_search_results_witness :
  map CountryListItem.iso3 (CountryExplorer.filtered (Some sampleDropdown) "ME")
    = ["MEX"]%string
  /\ CountryExplorer.filtered (Some sampleDropdown) ""
     = DropdownLists.countries sampleDropdown.
Proof.
  destruct (country_search_results sampleDropdown ""%string) as [_ [_ [_ Hempty]]].
  split; [reflexivity|]. rewrite (Hempty eq_refl). reflexivity.
Defined.

(** X11. The commodity search shows at most 20 commodities of the list;
    each one contains the lower-cased query in its lower-cased name;
    when at most 20 commodities match, every matching commodity is
    shown; and the empty query shows the first 20 commodities. *)
Theorem commodity_search_results (d : DropdownLists.t) (search : string) :
  let shown := CommodityExplorer.filtered (Some d) search in
  (List.length shown <= 20)%nat
  /\ (forall c, In c shown ->
        In c (DropdownLists.commodities d)
        /\ occursIn (Js.toLowerCase search) (Js.toLowerCase c))
  /\ ((List.length
          (filter (fun c => Js.includes (Js.toLowerCase c) (Js.toLowerCase search))
                  (DropdownLists.commodities d)) <= 20)%nat ->
        forall c, In c (DropdownLists.commodities d) ->
        occursIn (Js.toLowerCase search) (Js.toLowerCase c) -> In c shown)
  /\ (search = ""%string -> shown = firstn 20 (DropdownLists.commodities d)).
Proof.
  cbn zeta. unfold CommodityExplorer.filtered.
  set (p := fun c => Js.includes (Js.toLowerCase c) (Js.toLowerCase search)).
  destruct (search_results p (DropdownLists.commodities d))
    as [Hlen [Hin [Hall Hempty]]].
  split; [exact Hlen|]. split; [|split].
  - intros c Hc. destruct (Hin c Hc) as [H1 H2]. split; [exact H1|].
    now apply includes_spec.
  - intros Hsmall c Hc Hm.
    apply Hall; [exact Hsmall|exact Hc|now apply includes_spec].
  - intros ->. apply Hempty. intros c _. unfold p. cbn [Js.toLowerCase].
    now rewrite includes_empty.
Qed.

Lemma commodity_search_results_witness :
  CommodityExplorer.filtered (Some sampleDropdown) "WHEAT"
    = ["Wheat"; "Wheat flour"]%string
  /\ CommodityExplorer.filtered (Some sampleDropdown) ""
     = DropdownLists.commodities sampleDropdown.
Proof.
  destruct (commodity_search_results sampleDropdown ""%string) as [_ [_ [_ Hempty]]].
  split; [reflexivity|]. rewrite (Hempty eq_refl). reflexivity.
Defined.

(** The default sort of strings. *)

Lemma leb_iff (a b : string) :
  String.leb a b = true <-> a = b \/ OrderedTypeEx.String_as_OT.lt a b.
Proof.
  unfold String.leb. destruct (String.compare a b) eqn:Hc.
  - apply String.compare_eq_iff in Hc. tauto.
  - apply OrderedTypeEx.String_as_OT.cmp_lt in Hc. tauto.
  - split; [discriminate|]. intros [->|Hlt].
    + assert (He : String.compare b b = Eq)
        by now apply OrderedTypeEx.String_as_OT.cmp_eq.
      unfold OrderedTypeEx.String_as_OT.cmp in He. congruence.
    + apply OrderedTypeEx.String_as_OT.cmp_lt in Hlt.
      unfold OrderedTypeEx.String_as_OT.cmp in Hlt. congruence.
Qed.

Lemma leb_trans (a b c : string) :
  String.leb a b = true -> String.leb b c = true -> String.leb a c = true.
Proof.
  rewrite !leb_iff. intros [->|Hab] [->|Hbc]; auto.
  right. eapply OrderedTypeEx.String_as_OT.lt_trans; eassumption.
Qed.

Lemma cmpString_le (a b : string) :
  Qle_bool (Js.cmpString a b) 0 = true <-> String.leb a b = true.
Proof.
  unfold Js.cmpString, String.leb. destruct (String.compare a b); cbn; tauto.
Qed.

Lemma cmpString_gt (a b : string) :
  Qle_bool (Js.cmpString a b) 0 = false -> String.leb b a = true.
Proof.
  intros Hf. destruct (String.leb_total a b) as [Hab|Hba]; [|exact Hba].
  apply cmpString_le in Hab. congruence.
Qed.

Lemma insert_perm_any {A : Type} (cmp : A -> A -> Q) (x : A) (l : list A) :
  Permutation (Js.insert cmp x l) (x :: l).
Proof.
  induction l as [|y l IH]; cbn [Js.insert].
  - apply Permutation_refl.
  - destruct (Qle_bool (cmp x y) 0).
    + apply Permutation_refl.
    + eapply Permutation_trans; [apply perm_skip, IH|apply perm_swap].
Qed.

Lemma sort_perm_any {A : Type} (cmp : A -> A -> Q) (l : list A) :
  Permutation (Js.sort cmp l) l.
Proof.
  induction l as [|x l IH]; cbn [Js.sort fold_right].
  - apply perm_nil.
  - eapply Permutation_trans; [apply insert_perm_any|now apply perm_skip].
Qed.

Lemma insertString_sorted (x : string) (l : list string) :
  StronglySorted ascStr l -> StronglySorted ascStr (Js.insert Js.cmpString x l).
Proof.
  induction 1 as [|y l Hs IH Hall]; cbn [Js.insert].
  - constructor; constructor.
  - destruct (Qle_bool (Js.cmpString x y) 0) eqn:Hb.
    + apply cmpString_le in Hb. constructor; [now constructor|].
      constructor; [exact Hb|].
      eapply Forall_impl; [|exact Hall]. intros z Hz.
      unfold ascStr in *. eapply leb_trans; eassumption.
    + apply cmpString_gt in Hb. constructor; [exact IH|].
      rewrite Forall_forall. intros z Hz.
      apply (Permutation_in _ (insert_perm_any Js.cmpString x l)) in Hz.
      destruct Hz as [<-|Hz]; [exact Hb|].
      rewrite Forall_forall in Hall. now apply Hall.
Qed.

Lemma sortStrings_sorted (l : list string) : StronglySorted ascStr (Js.sortStrings l).
Proof.
  unfold Js.sortStrings.
  induction l as [|x l IH]; cbn [Js.sort fold_right]; [constructor|].
  now apply insertString_sorted.
Qed.

Lemma ascStr_filter (p : string -> bool) (l : list string) :
  StronglySorted ascStr l -> StronglySorted ascStr (filter p l).
Proof.
  induction 1 as [|x l Hs IH Hall]; cbn [filter]; [constructor|].
  destruct (p x); [|exact IH]. constructor; [exact IH|].
  rewrite Forall_forall in *. intros y Hy. apply Hall.
  now apply filter_In in Hy.
Qed.

(** X12. The commodity dropdown is in ascending order of the names.
    Without a query it lists every commodity of the table exactly once
    per key; with a query it lists exactly the commodities whose
    lower-cased name contains the lower-cased query. *)
Theorem commodityList_sorted_matches
    (byCommodity : BilateralByCommodity) (commoditySearch : string) :
  let shown := BilateralFlowMap.commodityList (Some byCommodity) commoditySearch in
  StronglySorted ascStr shown
  /\ (commoditySearch = ""%string -> Permutation shown (Js.keys byCommodity))
  /\ (forall c, In c shown <->
        In c (Js.keys byCommodity)
        /\ occursIn (Js.toLowerCase commoditySearch) (Js.toLowerCase c)).
Proof.
  cbn zeta. unfold BilateralFlowMap.commodityList.
  pose proof (sortStrings_sorted (Js.keys byCommodity)) as Hs.
  assert (Hin : forall c, In c (Js.sortStrings (Js.keys byCommodity))
                          <-> In c (Js.keys byCommodity)).
  { intros c. unfold Js.sortStrings.
    split; apply Permutation_in; [|apply Permutation_sym]; apply sort_perm_any. }
  destruct commoditySearch as [|a q]; cbn [Js.truthyStr].
  - split; [exact Hs|]. split; [intros _; apply sort_perm_any|].
    intros c. rewrite Hin. cbn [Js.toLowerCase]. split; [|tauto].
    intros Hc. split; [exact Hc|]. apply includes_spec, includes_empty.
  - split; [now apply ascStr_filter|]. split; [discriminate|].
    intros c. rewrite filter_In, Hin, includes_spec. tauto.
Qed.

Lemma commodityList_sorted_matches_witness :
  BilateralFlowMap.commodityList (Some sampleByCommodity) ""
    = ["Maize"; "Rice"; "Wheat"]%string
  /\ BilateralFlowMap.commodityList (Some sampleByCommodity) "I"
     = ["Maize"; "Rice"]%string
  /\ Permutation (BilateralFlowMap.commodityList (Some sampleByCommodity) "")
       (Js.keys sampleByCommodity).
Proof.
  destruct (commodityList_sorted_matches sampleByCommodity ""%string)
    as [_ [Hperm _]].
  split; [reflexivity|]. split; [reflexivity|]. now apply Hperm.
Defined.

(** ** Transport factor rows and the insight (CommodityExplorer) *)

(** X13. The factor rows of an entry are descending in [ttw]; they are
    the modes of the entry, one row per mode, each carrying the figures
    of its mode under [modeKey] and the capitalised key as label. *)
Theorem factorRows_sorted_modes (tf : Js.Obj TransportModeFactor.t) :
  let rows := CommodityExplorer.factorRows tf in
  StronglySorted (descBy CommodityExplorer.ttw) rows
  /\ Permutation (map CommodityExplorer.modeKey rows) (Js.keys tf)
  /\ forall r, In r rows ->
       CommodityExplorer.mode r = Js.capitalize (CommodityExplorer.modeKey r)
       /\ exists data,
            In (CommodityExplorer.modeKey r, data) tf
            /\ CommodityExplorer.ttw r = TransportModeFactor.ttw data
            /\ CommodityExplorer.distance r = TransportModeFactor.distance data
            /\ CommodityExplorer.routes r = TransportModeFactor.routes data.
Proof.
  cbn zeta. unfold CommodityExplorer.factorRows, Js.entries.
  split; [apply sort_sorted|]. split.
  - eapply Permutation_trans; [apply Permutation_map, sort_perm|].
    rewrite map_map. apply Permutation_refl.
  - intros r Hr. apply sort_In in Hr. apply in_map_iff in Hr.
    destruct Hr as [[k data] [<- Hin]]. cbn. split; [reflexivity|].
    exists data. now repeat split.
Qed.

Lemma sorted_head_max {A : Type} (f : A -> Q) (l : list A) (first : A) :
  StronglySorted (descBy f) l -> nth_error l 0 = Some first ->
  forall r, In r l -> f r <= f first.
Proof.
  intros Hs Hn r Hr. destruct l as [|x l]; [discriminate|].
  cbn in Hn. injection Hn as ->. inversion Hs as [|? ? _ Hall]; subst.
  destruct Hr as [<-|Hr]; [apply Qle_refl|].
  rewrite Forall_forall in Hall. now apply Hall.
Qed.

Lemma sorted_last_min {A : Type} (f : A -> Q) (l : list A) (last : A) :
  StronglySorted (descBy f) l ->
  nth_error l (List.length l - 1) = Some last ->
  forall r, In r l -> f last <= f r.
Proof.
  induction 1 as [|x l Hs IH Hall]; intros Hn r Hr; [contradiction|].
  destruct l as [|y l].
  - cbn in Hn. injection Hn as ->. destruct Hr as [<-|[]]. apply Qle_refl.
  - replace (List.length (x :: y :: l) - 1)%nat
      with (S (List.length (y :: l) - 1)) in Hn by (cbn [List.length]; lia).
    cbn [nth_error] in Hn.
    destruct Hr as [<-|Hr].
    + rewrite Forall_forall in Hall. apply Hall.
      eapply nth_error_In; exact Hn.
    + now apply IH.
Qed.

Lemma factors_sorted (transportFactors : option TransportFactors) (commodity : string) :
  StronglySorted (descBy CommodityExplorer.ttw)
    (CommodityExplorer.factors transportFactors commodity).
Proof.
  unfold CommodityExplorer.factors.
  destruct transportFactors as [table|]; [|constructor].
  destruct (CommodityExplorer.factorsTf table commodity) as [tf|]; [|constructor].
  apply sort_sorted.
Qed.

(** X14. The insight is shown exactly when there are at least two
    factor rows. It then compares the first row, which has the largest
    [ttw], with the last, which has the smallest: when the smallest is
    positive the ratio is largest over smallest and at least 1; when the
    smallest is 0 the divisor is 1 and the ratio is the largest [ttw]
    itself. *)
Theorem insightRatio_of_factors
    (transportFactors : option TransportFactors) (commodity : string) :
  let rows := CommodityExplorer.factors transportFactors commodity in
  ((List.length rows < 2)%nat -> CommodityExplorer.insightRatio rows = None)
  /\ ((2 <= List.length rows)%nat ->
        exists first last ratio,
          nth_error rows 0 = Some first
          /\ nth_error rows (List.length rows - 1) = Some last
          /\ CommodityExplorer.insightRatio rows = Some ratio
          /\ (forall r, In r rows ->
                CommodityExplorer.ttw last <= CommodityExplorer.ttw r
                /\ CommodityExplorer.ttw r <= CommodityExplorer.ttw first)
          /\ (0 < CommodityExplorer.ttw last ->
                ratio == CommodityExplorer.ttw first / CommodityExplorer.ttw last
                /\ 1 <= ratio)
          /\ (CommodityExplorer.ttw last == 0 ->
                ratio == CommodityExplorer.ttw first)).
Proof.
  cbn zeta. pose proof (factors_sorted transportFactors commodity) as Hs.
  set (rows := CommodityExplorer.factors transportFactors commodity) in *.
  unfold CommodityExplorer.insightRatio. split.
  - intros Hlt. destruct (2 <=? List.length rows)%nat eqn:Hb; [|reflexivity].
    apply Nat.leb_le in Hb. lia.
  - intros Hge. apply Nat.leb_le in Hge as Hb. rewrite Hb.
    destruct (nth_error rows 0) as [first|] eqn:Hfirst;
      [|apply nth_error_None in Hfirst; lia].
    destruct (nth_error rows (List.length rows - 1)) as [last|] eqn:Hlast;
      [|apply nth_error_None in Hlast; lia].
    assert (Hi0 : Js.index rows 0 = Some first) by exact Hfirst.
    assert (Hil : Js.index rows (Z.of_nat (List.length rows) - 1) = Some last).
    { unfold Js.index.
      destruct (Z.of_nat (List.length rows) - 1 <? 0)%Z eqn:Hneg;
        [apply Z.ltb_lt in Hneg; lia|].
      replace (Z.to_nat (Z.of_nat (List.length rows) - 1))
        with (List.length rows - 1)%nat by lia.
      exact Hlast. }
    rewrite Hi0, Hil.
    assert (Hmax := sorted_head_max CommodityExplorer.ttw rows first Hs Hfirst).
    assert (Hmin := sorted_last_min CommodityExplorer.ttw rows last Hs Hlast).
    assert (Hlf : CommodityExplorer.ttw last <= CommodityExplorer.ttw first).
    { apply Hmax. eapply nth_error_In; exact Hlast. }
    eexists first, last, _. split; [reflexivity|]. split; [reflexivity|].
    split; [reflexivity|]. split; [|split].
    + intros r Hr. split; [now apply Hmin|now apply Hmax].
    + intros Hpos. unfold Js.truthy.
      destruct (Qeq_bool (CommodityExplorer.ttw last) 0) eqn:Hz.
      * apply Qeq_bool_eq in Hz. lra.
      * cbn [negb]. split; [reflexivity|]. apply Qle_shift_div_l; lra.
    + intros Hzero. unfold Js.truthy.
      apply Qeq_bool_iff in Hzero. rewrite Hzero. cbn [negb]. field.
Qed.

Lemma insightRatio_of_factors_witness :
  CommodityExplorer.insightRatio (CommodityExplorer.factors (Some sampleFactors) "Wheat")
    = Some (4 / 2)
  /\ CommodityExplorer.insightRatio
       (CommodityExplorer.factors (Some sampleFactors) "Wheat flour") = None.
Proof.
  destruct (insightRatio_of_factors (Some sampleFactors) "Wheat flour"%string)
    as [Hnone _].
  split; [reflexivity|]. apply Hnone. cbn. lia.
Defined.

(** ** Formatters (utils/formatters.ts) *)

Section FormatterFacts.
Variable toFixed : Q -> nat -> string.

(** X15. A cost is formatted as a dollar sign followed by the number
    formatted by [formatNumber]: the two share thresholds, scaling,
    digits and unit letters. *)
Theorem formatCost_dollar_formatNumber (usd : Q) :
  Formatters.formatCost toFixed usd
  = String.append "$" (Formatters.formatNumber toFixed usd).
Proof.
  unfold Formatters.formatCost, Formatters.formatNumber.
  destruct (Js.geb usd 1000000000); [reflexivity|].
  destruct (Js.geb usd 1000000); [reflexivity|].
  destruct (Js.geb usd 1000); reflexivity.
Qed.

Lemma geb_true (x y : Q) : Js.geb x y = true <-> y <= x.
Proof. unfold Js.geb. apply Qle_bool_iff. Qed.

Lemma geb_false (x y : Q) : Js.geb x y = false <-> x < y.
Proof.
  unfold Js.geb. split.
  - intros Hb. apply Qnot_le_lt. intros Hle. apply Qle_bool_iff in Hle. congruence.
  - intros Hlt. destruct (Qle_bool y x) eqn:Hb; [|reflexivity].
    apply Qle_bool_iff in Hb. lra.
Qed.

(** X16. An emission is shown in exactly one of three units, chosen by
    its magnitude: from a million up, in Mt with the number scaled to at
    least 1; from a thousand up to a million, in thousands with the
    number scaled into [[1, 1000)]; below a thousand (zero and negative
    values included), in tonnes unscaled. *)
Theorem formatEmissions_units (tco2 : Q) :
  (1000000 <= tco2
   /\ Formatters.formatEmissions toFixed tco2
      = String.append (toFixed (tco2 / 1000000) 1) " Mt"
   /\ 1 <= tco2 / 1000000)
  \/ (1000 <= tco2 /\ tco2 < 1000000
      /\ Formatters.formatEmissions toFixed tco2
         = String.append (toFixed (tco2 / 1000) 1) "k t"
      /\ 1 <= tco2 / 1000 /\ tco2 / 1000 < 1000)
  \/ (tco2 < 1000
      /\ Formatters.formatEmissions toFixed tco2
         = String.append (toFixed tco2 0) " t").
Proof.
  unfold Formatters.formatEmissions.
  destruct (Js.geb tco2 1000000) eqn:Hm.
  - apply geb_true in Hm. left. split; [exact Hm|]. split; [reflexivity|].
    apply Qle_shift_div_l; lra.
  - apply geb_false in Hm. destruct (Js.geb tco2 1000) eqn:Hk.
    + apply geb_true in Hk. right. left.
      split; [exact Hk|]. split; [exact Hm|]. split; [reflexivity|]. split.
      * apply Qle_shift_div_l; lra.
      * apply Qlt_shift_div_r; lra.
    + apply geb_false in Hk. right. right. now split.
Qed.

End FormatterFacts.

(** ** Producer series (CountryExplorer) *)



(** ** The ranking and the top-commodities chart agree *)

Lemma insert_map {A B : Type} (f : A -> Q) (g : B -> Q) (h : A -> B)
    (x : A) (l : list A) :
  (forall a, g (h a) = f a) ->
  Js.insert (byTtwDesc g) (h x) (map h l) = map h (Js.insert (byTtwDesc f) x l).
Proof.
  intros Hgh. induction l as [|y l IH]; cbn [Js.insert map]; [reflexivity|].
  unfold byTtwDesc at 1 3. rewrite !Hgh.
  destruct (Qle_bool (f y - f x) 0); cbn [map]; [reflexivity|].
  now rewrite IH.
Qed.

Lemma sort_map {A B : Type} (f : A -> Q) (g : B -> Q) (h : A -> B) (l : list A) :
  (forall a, g (h a) = f a) ->
  Js.sort (byTtwDesc g) (map h l) = map h (Js.sort (byTtwDesc f) l).
Proof.
  intros Hgh. induction l as [|x l IH]; cbn [Js.sort fold_right map]; [reflexivity|].
  fold (Js.sort (byTtwDesc g) (map h l)). fold (Js.sort (byTtwDesc f) l).
  rewrite IH. now apply insert_map.
Qed.

Lemma topCommodities_names (table : Commodities) (yearStr : string) :
  map GlobalOverview.CommodityRow.fullName
      (GlobalOverview.topCommodities (Some table) yearStr)
  = firstn 10 (map RankEntry.name (sorted table yearStr)).
Proof.
  unfold GlobalOverview.topCommodities, Js.slice0, sorted.
  set (h := fun e : RankEntry.t =>
              {| GlobalOverview.CommodityRow.name :=
                   GlobalOverview.shortName (RankEntry.name e);
                 GlobalOverview.CommodityRow.ttw := RankEntry.ttw e;
                 GlobalOverview.CommodityRow.fullName := RankEntry.name e |}).
  assert (Hrows : GlobalOverview.commodityRows table yearStr
                  = map h (rankEntries table yearStr)).
  { unfold GlobalOverview.commodityRows, rankEntries. now rewrite map_map. }
  rewrite Hrows, (sort_map RankEntry.ttw GlobalOverview.CommodityRow.ttw h);
    [|reflexivity].
  rewrite <- firstn_map, map_map. reflexivity.
Qed.

(** X18. The overview chart and the explorer rank the commodities alike:
    the chart lists, in order, the first 10 names of the explorer's
    ranking. A commodity the explorer ranks in position 1 to 10 is the
    row of that position in the chart; one ranked beyond 10, or not
    ranked (position 0), is not in the chart. *)
Theorem topCommodities_matches_rank
    (table : Commodities) (commodity yearStr : string) :
  let top := GlobalOverview.topCommodities (Some table) yearStr in
  let k := rank (allRanked (Some table) commodity yearStr) in
  map GlobalOverview.CommodityRow.fullName top
    = firstn 10 (map RankEntry.name (sorted table yearStr))
  /\ ((1 <= k <= 10)%Z ->
        exists r, nth_error top (Z.to_nat (k - 1)) = Some r
                  /\ GlobalOverview.CommodityRow.fullName r = commodity)
  /\ ((k = 0 \/ 10 < k)%Z ->
        ~ In commodity (map GlobalOverview.CommodityRow.fullName top)).
Proof.
  cbn zeta. pose proof (topCommodities_names table yearStr) as Hnames.
  split; [exact Hnames|].
  unfold allRanked. cbn [rank]. unfold Js.findIndex.
  destruct (findIndexFrom_spec (fun c => String.eqb (RankEntry.name c) commodity)
              (sorted table yearStr) 0)
    as [[Hm Hall]|[j [e [Hj [Hn [He Hlt]]]]]].
  - rewrite Hm. split; [lia|]. intros _ Hin. rewrite Hnames in Hin.
    apply In_firstn, in_map_iff in Hin. destruct Hin as [e [He Hin]].
    specialize (Hall (Z.le_refl 0)). rewrite Forall_forall in Hall.
    specialize (Hall e Hin). cbn in Hall. rewrite He, String.eqb_refl in Hall.
    discriminate.
  - apply String.eqb_eq in He. rewrite Hj.
    replace (0 + Z.of_nat j + 1 - 1)%Z with (Z.of_nat j) by lia. rewrite Nat2Z.id.
    split.
    + intros Hk.
      assert (Hnth : nth_error
                       (map GlobalOverview.CommodityRow.fullName
                          (GlobalOverview.topCommodities (Some table) yearStr)) j
                     = Some commodity).
      { rewrite Hnames, nth_error_firstn.
        destruct (Nat.ltb_spec j 10) as [_|Hge]; [|lia].
        rewrite nth_error_map, Hn. cbn. now rewrite He. }
      rewrite nth_error_map in Hnth.
      destruct (nth_error (GlobalOverview.topCommodities (Some table) yearStr) j)
        as [r|]; [|discriminate].
      exists r. split; [reflexivity|]. cbn in Hnth. congruence.
    + intros [Hk|Hk]; [lia|]. intros Hin. rewrite Hnames in Hin.
      apply In_nth_error in Hin. destruct Hin as [i Hi].
      rewrite nth_error_firstn in Hi.
      destruct (Nat.ltb_spec i 10) as [Hi10|_]; [|discriminate].
      rewrite nth_error_map in Hi.
      destruct (nth_error (sorted table yearStr) i) as [e'|] eqn:Hi'; [|discriminate].
      cbn in Hi. injection Hi as Hname.
      assert (Hij : (i < j)%nat) by lia.
      specialize (Hlt i e' Hij Hi'). cbn in Hlt.
      rewrite Hname, String.eqb_refl in Hlt. discriminate.
Qed.

Lemma topCommodities_matches_rank_witness :
  rank (allRanked (Some sampleCommodities) "Wheat" "2023") = 2%Z
  /\ exists r,
       nth_error (GlobalOverview.topCommodities (Some sampleCommodities) "2023") 1
         = Some r
       /\ GlobalOverview.CommodityRow.fullName r = "Wheat"%string.
Proof.
  destruct (topCommodities_matches_rank sampleCommodities "Wheat"%string "2023"%string)
    as [_ [Hin _]].
  split; [reflexivity|]. apply Hin. cbn. lia.
Defined.

(** ** The threshold slider (BilateralFlowMap) *)

(** X19. The slider's upper end is at least 100000 and at least the
    [ttw] of every flow of the source; with the threshold at that upper
    end, every flow still shown has exactly that [ttw]. *)
Theorem sliderMax_bounds
    (bilateral : option BilateralTopFlows)
    (bilateralByCommodity : option BilateralByCommodity)
    (selectedCommodity yearStr modeFilter : string) :
  let source := BilateralFlowMap.allFlows bilateral bilateralByCommodity
                  selectedCommodity yearStr modeFilter in
  let top := BilateralFlowMap.sliderMax source in
  100000 <= top
  /\ (forall f, In f source -> BilateralFlow.ttw f <= top)
  /\ (forall f,
        In f (BilateralFlowMap.filteredFlows bilateral bilateralByCommodity
                selectedCommodity yearStr modeFilter top) ->
        BilateralFlow.ttw f == top).
Proof.
  cbn zeta.
  set (source := BilateralFlowMap.allFlows bilateral bilateralByCommodity
                   selectedCommodity yearStr modeFilter).
  assert (Hall : forall f, In f source ->
                   BilateralFlow.ttw f <= BilateralFlowMap.sliderMax source).
  { intros f Hf. apply max_spread_ge_each. now apply in_map. }
  split; [apply max_spread_ge_last|]. split; [exact Hall|].
  intros f Hf. rewrite filteredFlows_survivors in Hf.
  apply In_firstn, filter_In in Hf. destruct Hf as [Hin Hp].
  apply andb_true_iff in Hp. destruct Hp as [_ Hge].
  apply geb_true in Hge. apply Qle_antisym; [now apply Hall|exact Hge].
Qed.

Lemma sliderMax_bounds_witness :
  BilateralFlowMap.sliderMax sampleBucket == 300000
  /\ map BilateralFlow.from
       (BilateralFlowMap.filteredFlows (Some sampleFlows) None "" "2023" "air"
          (BilateralFlowMap.sliderMax sampleBucket))
     = ["CHN"]%string.
Proof.
  destruct (sliderMax_bounds (Some sampleFlows) None ""%string "2023"%string "air"%string)
    as [_ [_ Hshown]].
  split; [|reflexivity].
  apply (Hshown (flow "CHN" "USA" 300000 "air")). cbn. now left.
Defined.

(** ** The partial match of the factor lookup (CommodityExplorer) *)

Lemma find_first {A : Type} (p : A -> bool) (l : list A) (x : A) :
  find p l = Some x ->
  exists l1 l2, l = l1 ++ x :: l2 /\ p x = true /\ forall y, In y l1 -> p y = false.
Proof.
  induction l as [|y l IH]; cbn [find]; [discriminate|].
  destruct (p y) eqn:Hy.
  - intros [= ->]. exists [], l. split; [reflexivity|]. split; [exact Hy|].
    intros z [].
  - intros Hf. destruct (IH Hf) as [l1 [l2 [-> [Hx Hl1]]]].
    exists (y :: l1), l2. split; [reflexivity|]. split; [exact Hx|].
    intros z [<-|Hz]; [exact Hy|now apply Hl1].
Qed.

Lemma splitHead_spec (sep : ascii) (s : string) :
  (exists rest, s = String.append (Js.splitHead sep s) rest)
  /\ forall pre post, Js.splitHead sep s <> String.append pre (String sep post).
Proof.
  induction s as [|c s [[rest Hrest] Hno]]; cbn [Js.splitHead].
  - split; [now exists EmptyString|]. intros [|a pre] post; discriminate.
  - destruct (Ascii.eqb_spec c sep) as [->|Hne].
    + split; [now exists (String sep s)|]. intros [|a pre] post; discriminate.
    + split.
      * exists rest. cbn. now rewrite <- Hrest.
      * intros [|a pre] post; cbn; intros Heq.
        -- injection Heq as Hc _. contradiction.
        -- injection Heq as _ Hs. now apply (Hno pre post).
Qed.

(** X20. The partial match goes by the first word of the commodity: the
    lower-cased name up to its first comma and then up to its first
    space, which so contains neither. It selects the first key of the
    table, in key order, whose lower-cased text contains that word, and
    nothing when no key does. When the first word is empty (an empty
    name, or one starting with a space or a comma), every key matches
    and the first key of the table is selected. *)
Theorem partialKey_first_match (table : TransportFactors) (commodity : string) :
  let word := CommodityExplorer.firstWord commodity in
  (exists rest, Js.toLowerCase commodity = String.append word rest)
  /\ (forall pre post, word <> String.append pre (String " "%char post)
                       /\ word <> String.append pre (String ","%char post))
  /\ (forall key, CommodityExplorer.partialKey table commodity = Some key ->
        occursIn word (Js.toLowerCase key)
        /\ exists before after,
             Js.keys table = before ++ key :: after
             /\ forall k, In k before -> ~ occursIn word (Js.toLowerCase k))
  /\ (CommodityExplorer.partialKey table commodity = None <->
        forall k, In k (Js.keys table) -> ~ occursIn word (Js.toLowerCase k))
  /\ (word = ""%string ->
        CommodityExplorer.partialKey table commodity = hd_error (Js.keys table)).
Proof.
  cbn zeta. unfold CommodityExplorer.partialKey.
  set (word := CommodityExplorer.firstWord commodity).
  assert (Hp : forall k, Js.includes (Js.toLowerCase k) word = false
                         <-> ~ occursIn word (Js.toLowerCase k)).
  { intros k. rewrite <- includes_spec.
    destruct (Js.includes (Js.toLowerCase k) word); split; congruence. }
  split; [|split; [|split; [|split]]].
  - unfold word, CommodityExplorer.firstWord.
    destruct (splitHead_spec ","%char (Js.toLowerCase commodity)) as [[r1 H1] _].
    destruct (splitHead_spec " "%char
                (Js.splitHead ","%char (Js.toLowerCase commodity))) as [[r2 H2] _].
    exists (String.append r2 r1). rewrite H1 at 1. rewrite H2 at 1.
    clear. generalize (Js.splitHead " "%char
                         (Js.splitHead ","%char (Js.toLowerCase commodity))).
    intros s. induction s as [|c s IH]; cbn; [reflexivity|]. now rewrite IH.
  - intros pre post. unfold word, CommodityExplorer.firstWord. split.
    + apply splitHead_spec.
    + intros Heq.
      destruct (splitHead_spec ","%char (Js.toLowerCase commodity)) as [[r1 H1] Hno].
      destruct (splitHead_spec " "%char
                  (Js.splitHead ","%char (Js.toLowerCase commodity))) as [[r2 H2] _].
      rewrite Heq in H2.
      apply (Hno pre (String.append post r2)). rewrite H2.
      clear. induction pre as [|c pre IH]; cbn; [reflexivity|]. now rewrite IH.
  - intros key Hfind. apply find_first in Hfind.
    destruct Hfind as [before [after [Hkeys [Hkey Hbefore]]]].
    split; [now apply includes_spec|].
    exists before, after. split; [exact Hkeys|].
    intros k Hk. apply Hp. now apply Hbefore.
  - split.
    + intros Hnone k Hk. apply Hp. exact (find_none _ _ Hnone k Hk).
    + intros Hall.
      destruct (find (fun k => Js.includes (Js.toLowerCase k) word) (Js.keys table))
        as [key|] eqn:Hfind; [|reflexivity].
      apply find_some in Hfind. destruct Hfind as [Hin Hkey].
      apply Hall in Hin. apply Hp in Hin. congruence.
  - intros Hword. rewrite Hword.
    destruct (Js.keys table) as [|k ks]; [reflexivity|].
    cbn [find hd_error]. now rewrite includes_empty.
Qed.

Lemma partialKey_first_match_witness :
  CommodityExplorer.firstWord "Wheat, durum" = "wheat"%string
  /\ CommodityExplorer.partialKey sampleFactors " maize" = Some "Wheat flour"%string
  /\ CommodityExplorer.partialKey sampleFactors "Rice" = None.
Proof.
  destruct (partialKey_first_match sampleFactors " maize"%string)
    as [_ [_ [_ [_ Hempty]]]].
  split; [reflexivity|]. split; [|reflexivity].
  rewrite (Hempty eq_refl). reflexivity.
Defined.
